(** * Canadian IP Marketplace patent scraper: a shallow embedding

    This development embeds [patent_scraper.py] (the record type
    [PatentData], the text helpers of [PatentScraper], the single-page
    scrape and the pagination driver) and checks the properties that the
    specification states about them.

    Conventions.
    - A Python [str] is a [list ascii]; one [ascii] stands for one code
      point below 256.  Python's notion of white space ([str.strip],
      [str.split] without argument and the [\s] class of [re] all use the
      same predicate) is [is_space].
    - Calls into Selenium and BeautifulSoup are not part of the repository:
      their results are inputs of the model (records [element], [soup],
      [page_env], [run_env]).
    - Effects are recorded in a trace of [event]s; a computation returns
      its trace together with an [outcome].
    - Page indices, retry counts and delays are integers ([Z]); delays are
      whole seconds, as the defaults of the configuration are. *)

From Stdlib Require Import String Ascii List Bool Arith ZArith Lia.
Import ListNotations.

Set Implicit Arguments.

(** ** Python strings *)

Definition str := list ascii.

Definition py (s : string) : str := list_ascii_of_string s.

(** White space in the sense of [str.isspace], for code points below 256:
    TAB..CR, FS..US, SPACE, NEL and NBSP. *)
Definition is_space (c : ascii) : bool :=
  let n := nat_of_ascii c in
  ((9 <=? n) && (n <=? 13)) || ((28 <=? n) && (n <=? 32))
  || (n =? 133) || (n =? 160).

Definition SP : ascii := " "%char.
Definition NL : ascii := "010"%char.

Fixpoint dropwhile (p : ascii -> bool) (s : str) : str :=
  match s with
  | [] => []
  | c :: s' => if p c then dropwhile p s' else s
  end.

(** [s.lstrip()]: the leading white space is dropped. *)
Definition lstrip (s : str) : str := dropwhile is_space s.

(** [s.rstrip()]: the trailing white space is dropped; a character stays
    when something stays after it or when it is not white space. *)
Fixpoint rstrip (s : str) : str :=
  match s with
  | [] => []
  | c :: s' =>
      match rstrip s' with
      | [] => if is_space c then [] else [c]
      | r => c :: r
      end
  end.

(** [s.strip()]. *)
Definition strip (s : str) : str := rstrip (lstrip s).

(** [re.sub(r'\s+', ' ', s)]: every maximal run of white space becomes one
    space.  A white-space character followed by another one is dropped; the
    last one of a run is replaced. *)
Fixpoint re_sub_ws (s : str) : str :=
  match s with
  | [] => []
  | c :: s' =>
      if is_space c then
        match s' with
        | d :: _ => if is_space d then re_sub_ws s' else SP :: re_sub_ws s'
        | [] => [SP]
        end
      else c :: re_sub_ws s'
  end.

(** [s.split()]: the maximal runs of characters that are not white space. *)
Fixpoint split_ws (s : str) : list str :=
  match s with
  | [] => []
  | c :: s' =>
      if is_space c then split_ws s'
      else
        match s' with
        | [] => [[c]]
        | d :: _ =>
            if is_space d then [c] :: split_ws s'
            else
              match split_ws s' with
              | w :: ws => (c :: w) :: ws
              | [] => [[c]]
              end
        end
  end.

(** [s.split(sep)] for a one-character separator: never empty, fields may
    be. *)
Fixpoint split_on (sep : ascii) (s : str) : list str :=
  match s with
  | [] => [[]]
  | c :: s' =>
      if Ascii.eqb c sep then [] :: split_on sep s'
      else
        match split_on sep s' with
        | f :: fs => (c :: f) :: fs
        | [] => [[c]]
        end
  end.

(** [sep.join(ws)]. *)
Fixpoint join (sep : str) (ws : list str) : str :=
  match ws with
  | [] => []
  | [w] => w
  | w :: ws' => w ++ sep ++ join sep ws'
  end.

Fixpoint str_eqb (a b : str) : bool :=
  match a, b with
  | [], [] => true
  | x :: a', y :: b' => Ascii.eqb x y && str_eqb a' b'
  | _, _ => false
  end.

Fixpoint starts_with (needle hay : str) : bool :=
  match needle, hay with
  | [], _ => true
  | x :: n', y :: h' => Ascii.eqb x y && starts_with n' h'
  | _ :: _, [] => false
  end.

(** [needle in hay]. *)
Fixpoint contains (needle hay : str) : bool :=
  starts_with needle hay ||
  match hay with
  | [] => false
  | _ :: h' => contains needle h'
  end.

(** [any(ind in text for ind in inds)]. *)
Definition any_in (inds : list str) (text : str) : bool :=
  existsb (fun ind => contains ind text) inds.

(** Truth value of a [str]. *)
Definition truthy (s : str) : bool :=
  match s with [] => false | _ => true end.

(** ** [PatentData] *)

Record PatentData : Type := mkPatentData {
  title : str;
  patent_number : str;
  organization : str;
  patent_type : str;
  year : str;
  date_added : str;
  url : str;
  description : str
}.

(** [PatentData()]: every field defaults to the empty string. *)
Definition PatentData_default : PatentData :=
  mkPatentData [] [] [] [] [] [] [] [].

(** [bool(self.title.strip() or self.patent_number.strip())]. *)
Definition is_valid (p : PatentData) : bool :=
  truthy (match strip (title p) with
          | [] => strip (patent_number p)
          | t => t
          end).

(** ** [PatentScraper.clean_patent_title] *)

Definition clean_patent_title (t : str) : str :=
  match t with
  | [] => []
  | _ =>
      let t1 := re_sub_ws (strip t) in
      let words := split_ws t1 in
      if 10 <? length words then
        let midpoint := length words / 2 in
        let first_half := join [SP] (firstn midpoint words) in
        let second_half := join [SP] (skipn midpoint words) in
        if str_eqb (strip first_half) (strip second_half)
        then strip first_half
        else t1
      else t1
  end.

(** ** HTML elements as the extractor sees them

    [BeautifulSoup] is an external library: an [element] records what the
    calls made by the scraper return on one tag.  [select_one] returns a tag
    or [None]; of a selected tag only [get_text()] is used, and [get('href')]
    for the title link. *)

Record element : Type := mkElement {
  get_text : str;                          (* item.get_text() *)
  sel_result_title : option str;           (* '.result-title' *)
  sel_publication_number : option str;     (* '.publication-number' *)
  sel_organisation_a : option str;         (* '.organisation a' *)
  sel_ip_type_span : option str;           (* '.ip-type span' *)
  sel_filed : option str;                  (* '.filed' *)
  sel_date_added : option str;             (* '.date-added' *)
  sel_invention_description : option str;  (* '.invention-description' *)
  sel_desktop_display : option (option str) (* '.desktop-display', its href *)
}.

(** What [soup.find_all('tr', class_=...)] and [soup.find_all('div')]
    return, in document order. *)
Record soup : Type := mkSoup {
  tr_ng_scope : list element;
  all_divs : list element
}.

Definition skip_indicators : list str :=
  [ py "Searching..."; py "Keyword search"; py "Save your search";
    py "Collaboration Opportunities"; py "Licensing Opportunity";
    py "Your search found no results"; py "Please note that ExploreIP" ].

Definition placeholder_indicators : list str :=
  [ py "Searching...";
    py "Your search found no results";
    py "Please note that ExploreIP does not provide a search of all known patents" ].

Definition fallback_skip : list str :=
  [ py "Searching..."; py "Keyword search" ].

(** [elem.get_text().strip()] when the element was found, else the field
    keeps its value. *)
Definition stripped_or (old : str) (sel : option str) : str :=
  match sel with
  | Some t => strip t
  | None => old
  end.

(** The title taken from ['.result-title']. *)
Definition title_from_selector (sel : option str) : str :=
  match sel with
  | Some t =>
      let title_text := strip t in
      if truthy title_text && negb (any_in skip_indicators title_text)
      then clean_patent_title title_text
      else []
  | None => []
  end.

(** The loop over the lines of the text: the first line that has no skip
    indicator and more than 10 characters gives the title. *)
Fixpoint title_from_lines (old : str) (lines : list str) : str :=
  match lines with
  | [] => old
  | line :: rest =>
      if negb (any_in skip_indicators line) && (10 <? length line)
      then clean_patent_title line
      else title_from_lines old rest
  end.

Definition url_from_link (sel : option (option str)) : str :=
  match sel with
  | Some (Some href) =>
      if truthy href then py "https://ised-isde.canada.ca" ++ href else []
  | _ => []
  end.

(** [PatentScraper.extract_patent_from_element]. *)
Definition extract_patent_from_element (item : element) : option PatentData :=
  let text_content := strip (get_text item) in
  if any_in skip_indicators text_content then None
  else
    let title1 := title_from_selector (sel_result_title item) in
    let title2 :=
      if negb (truthy title1) && truthy text_content then
        let lines :=
          filter truthy (map strip (split_on NL text_content)) in
        title_from_lines title1 lines
      else title1 in
    let patent :=
      {| title := title2;
         patent_number := stripped_or [] (sel_publication_number item);
         organization := stripped_or [] (sel_organisation_a item);
         patent_type := stripped_or [] (sel_ip_type_span item);
         year := stripped_or [] (sel_filed item);
         date_added := stripped_or [] (sel_date_added item);
         url := url_from_link (sel_desktop_display item);
         description := stripped_or [] (sel_invention_description item) |} in
    if is_valid patent then Some patent else None.

Definition option_list {A} (o : option A) : list A :=
  match o with Some a => [a] | None => [] end.

(** What one table row adds to [patents] in the primary loop. *)
Definition row_records (row : element) : list PatentData :=
  match sel_result_title row with
  | Some _ => option_list (extract_patent_from_element row)
  | None => []
  end.

(** What one [div] adds to [patents] in the fallback loop. *)
Definition div_records (div : element) : list PatentData :=
  let text := strip (get_text div) in
  if (50 <? length text) && negb (any_in fallback_skip text)
  then option_list (extract_patent_from_element div)
  else [].

(** The body of [scrape_patent_page] once the page source is parsed. *)
Definition page_records (s : soup) : list PatentData :=
  match flat_map row_records (tr_ng_scope s) with
  | [] => flat_map div_records (all_divs s)
  | patents => patents
  end.

(** ** Effects: exceptions, the trace, the scraper's state *)

(** The exception classes that the code names, and any other subclass of
    [Exception].  In Selenium, [TimeoutException] and
    [NoSuchElementException] derive from [WebDriverException]. *)
Inductive exn : Type :=
| TimeoutException
| NoSuchElementException
| WebDriverException
| OtherException.

Definition is_WebDriverException (e : exn) : bool :=
  match e with
  | OtherException => false
  | _ => true
  end.

Definition is_TimeoutException (e : exn) : bool :=
  match e with
  | TimeoutException => true
  | _ => false
  end.

(** How a call ends: it returns, it raises an exception deriving from
    [Exception], or it is interrupted by [KeyboardInterrupt], which
    [except Exception] does not catch. *)
Inductive outcome (A : Type) : Type :=
| Ok (a : A)
| Raise (e : exn)
| Interrupted.

Arguments Ok {A} a.
Arguments Raise {A} e.
Arguments Interrupted {A}.

(** The three places that call [time.sleep]. *)
Inductive sleep_site : Type :=
| Settle      (* wait_for_content_load: time.sleep(5) *)
| Backoff     (* scrape_all_pages: time.sleep(rate_limit_delay * 2) *)
| RateLimit.  (* scrape_all_pages: time.sleep(rate_limit_delay) *)

Inductive log_msg : Type :=
| LogDriverReady
| LogDriverError
| LogInstallChrome
| LogStillLoading (page : Z)
| LogPlaceholder (page : Z)
| LogScraping (page : Z)
| LogNotLoaded (page : Z)
| LogFoundRows (n : nat)
| LogFound (n : nat) (page : Z)
| LogTimeout (page : Z)
| LogPageError (page : Z)
| LogSetupFailed
| LogRetry (retries : Z) (page : Z)
| LogFailedAfterRetries (page : Z)
| LogTotal (n : nat)
| LogDriverClosed
| LogSaved (n : nat)
| LogCompleted
| LogNoPatents.

Inductive event : Type :=
| EvStartChrome                          (* webdriver.Chrome(...) *)
| EvExecuteScript                        (* the two execute_script calls *)
| EvGet (page : Z)                       (* self.driver.get(url) *)
| EvWaitUntilNot                         (* wait.until_not(...) *)
| EvSleep (site : sleep_site) (secs : Z) (* time.sleep(secs) *)
| EvFindBody                             (* find_element(...).text *)
| EvPageSource                           (* BeautifulSoup(page_source) *)
| EvQuit                                 (* self.driver.quit() *)
| EvMkdir                                (* output_dir.mkdir(exist_ok=True) *)
| EvWriteFile                            (* open(..., 'w') and json.dump *)
| EvLog (m : log_msg).

(** The result of running a computation from a scraper whose [driver]
    attribute is set or not: the events, the attribute afterwards, and the
    outcome. *)
Record result (A : Type) : Type := mkResult {
  trace : list event;
  driver : bool;
  out : outcome A
}.

Definition M (A : Type) : Type := bool -> result A.

Definition ret {A} (a : A) : M A :=
  fun d => mkResult [] d (Ok a).

Definition bind {A B} (m : M A) (k : A -> M B) : M B :=
  fun d =>
    let r := m d in
    match out r with
    | Ok a =>
        let r' := k a (driver r) in
        mkResult (trace r ++ trace r') (driver r') (out r')
    | Raise e => mkResult (trace r) (driver r) (Raise e)
    | Interrupted => mkResult (trace r) (driver r) Interrupted
    end.

Notation "x <- m ;; k" := (bind m (fun x => k))
  (at level 61, m at next level, right associativity).
Notation "m ;;; k" := (bind m (fun _ => k))
  (at level 61, right associativity).

(** An external call: it is recorded, and ends as the environment says. *)
Definition call {A} (ev : event) (o : outcome A) : M A :=
  fun d => mkResult [ev] d o.

Definition log (m : log_msg) : M unit := call (EvLog m) (Ok tt).

(** The longest sleep, in whole seconds, that [time.sleep] takes: the
    nanoseconds of the delay must fit in a signed 64-bit integer. *)
Definition sleep_max : Z := 9223372036%Z.

(** [time.sleep(secs)] raises [ValueError] when [secs] is negative and
    [OverflowError] when [secs] is above [sleep_max]. *)
Definition sleep_refused (secs : Z) : bool :=
  if (secs <? 0)%Z then true else (sleep_max <? secs)%Z.

Definition sleep (site : sleep_site) (secs : Z) : M unit :=
  call (EvSleep site secs)
       (if sleep_refused secs then Raise OtherException else Ok tt).

Definition get_driver : M bool := fun d => mkResult [] d (Ok d).
Definition set_driver : M unit := fun _ => mkResult [] true (Ok tt).

(** [try: m except C as e: handler e], where [catches] tells the
    exceptions of class [C]. *)
Definition try_except {A} (catches : exn -> bool) (m : M A)
    (handler : exn -> M A) : M A :=
  fun d =>
    let r := m d in
    match out r with
    | Raise e =>
        if catches e then
          let r' := handler e (driver r) in
          mkResult (trace r ++ trace r') (driver r') (out r')
        else r
    | _ => r
    end.

(** [try: m finally: fin].  The outcome is the one of [m] unless [fin]
    itself raises. *)
Definition try_finally {A} (m : M A) (fin : M unit) : M A :=
  fun d =>
    let r := m d in
    let r' := fin (driver r) in
    mkResult (trace r ++ trace r') (driver r')
      match out r' with
      | Ok _ => out r
      | Raise e => Raise e
      | Interrupted => Interrupted
      end.

Definition any_Exception (e : exn) : bool := true.

(** ** Configuration and environment *)

Local Open Scope Z_scope.

Record PatentScraperConfig : Type := mkConfig {
  start_page : Z;
  end_page : Z;
  timeout : Z;
  rate_limit_delay : Z;
  max_retries : Z
}.

(** [PatentScraperConfig()] when the file gives no value. *)
Definition default_config : PatentScraperConfig :=
  {| start_page := 1; end_page := 20; timeout := 30;
     rate_limit_delay := 5; max_retries := 3 |}.

(** What the browser answers during one call of [scrape_patent_page]. *)
Record page_env : Type := mkPageEnv {
  get_result : outcome unit;        (* self.driver.get(url) *)
  until_not_result : outcome unit;  (* wait.until_not(...) *)
  body_text : outcome str;          (* find_element(By.TAG_NAME, "body").text *)
  page_source : outcome soup        (* parsing and querying the page source *)
}.

(** What the outside world answers during one run: the calls of
    [setup_driver], the pages (by page index and by number of earlier
    attempts on that page), [quit], and the files written by [main]. *)
Record run_env : Type := mkRunEnv {
  chrome_result : outcome unit;     (* up to webdriver.Chrome(...) *)
  script_result : outcome unit;     (* the execute_script calls *)
  pages : Z -> nat -> page_env;
  quit_result : outcome unit;
  mkdir_result : outcome unit;
  write_result : nat -> outcome unit (* the n-th file written *)
}.

(** ** [PatentScraper.setup_driver] *)

Definition setup_driver (env : run_env) : M bool :=
  try_except is_WebDriverException
    (call EvStartChrome (chrome_result env) ;;;
     set_driver ;;;
     call EvExecuteScript (script_result env) ;;;
     log LogDriverReady ;;;
     ret true)
    (fun _ => log LogDriverError ;;; log LogInstallChrome ;;; ret false).

(** ** [PatentScraper.wait_for_content_load] *)

Definition wait_for_content_load (pe : page_env) (page_num : Z) : M bool :=
  try_except is_TimeoutException
    (call EvWaitUntilNot (until_not_result pe))
    (fun _ => log (LogStillLoading page_num)) ;;;
  sleep Settle 5 ;;;
  page_text <- call EvFindBody (body_text pe) ;;
  if any_in placeholder_indicators page_text then
    log (LogPlaceholder page_num) ;;; ret false
  else ret true.

(** ** [PatentScraper.scrape_patent_page] *)

Definition scrape_patent_page (pe : page_env) (page_num : Z)
  : M (list PatentData) :=
  try_except any_Exception
    (log (LogScraping page_num) ;;;
     call (EvGet page_num) (get_result pe) ;;;
     ready <- wait_for_content_load pe page_num ;;
     if negb ready then
       log (LogNotLoaded page_num) ;;; ret []
     else
       s <- call EvPageSource (page_source pe) ;;
       (match tr_ng_scope s with
        | [] => ret tt
        | rows => log (LogFoundRows (length rows))
        end) ;;;
       let patents := page_records s in
       log (LogFound (length patents) page_num) ;;;
       ret patents)
    (fun e =>
       if is_TimeoutException e
       then log (LogTimeout page_num) ;;; ret []
       else log (LogPageError page_num) ;;; ret []).

(** ** [PatentScraper.scrape_all_pages] *)

(** [range(start_page, end_page + 1)]. *)
Definition page_range (cfg : PatentScraperConfig) : list Z :=
  map (fun i => start_page cfg + Z.of_nat i)
      (seq 0 (Z.to_nat (end_page cfg + 1 - start_page cfg))).

(** The [while retries < max_retries] loop for one page.  Every turn either
    leaves the loop ([break]) or adds one to [retries], so
    [max_retries - retries] turns are enough; [fuel] bounds the turns. *)
Fixpoint retry_loop (fuel : nat) (cfg : PatentScraperConfig) (env : run_env)
    (page : Z) (retries : Z) (all_patents : list PatentData)
  : M (list PatentData) :=
  if retries <? max_retries cfg then
    match fuel with
    | O => ret all_patents
    | S fuel' =>
        r <- try_except any_Exception
               (patents <- scrape_patent_page
                             (pages env page (Z.to_nat retries)) page ;;
                ret (inl (all_patents ++ patents)))
               (fun _ =>
                  let retries := retries + 1 in
                  log (LogRetry retries page) ;;;
                  (if retries >=? max_retries cfg
                   then log (LogFailedAfterRetries page)
                   else ret tt) ;;;
                  sleep Backoff (rate_limit_delay cfg * 2) ;;;
                  ret (inr retries)) ;;
        match r with
        | inl all_patents' => ret all_patents'
        | inr retries' => retry_loop fuel' cfg env page retries' all_patents
        end
    end
  else ret all_patents.

(** The body of the [for page in range(...)] loop. *)
Definition page_step (cfg : PatentScraperConfig) (env : run_env)
    (page : Z) (all_patents : list PatentData) : M (list PatentData) :=
  acc <- retry_loop (Z.to_nat (max_retries cfg)) cfg env page 0 all_patents ;;
  sleep RateLimit (rate_limit_delay cfg) ;;;
  ret acc.

Fixpoint for_pages (cfg : PatentScraperConfig) (env : run_env)
    (ps : list Z) (all_patents : list PatentData) : M (list PatentData) :=
  match ps with
  | [] => ret all_patents
  | page :: rest =>
      acc <- page_step cfg env page all_patents ;;
      for_pages cfg env rest acc
  end.

(** The [finally] block. *)
Definition close_driver (env : run_env) : M unit :=
  d <- get_driver ;;
  if d then call EvQuit (quit_result env) ;;; log LogDriverClosed
  else ret tt.

Definition scrape_all_pages (cfg : PatentScraperConfig) (env : run_env)
  : M (list PatentData) :=
  ok <- setup_driver env ;;
  if negb ok then
    log LogSetupFailed ;;; ret []
  else
    try_finally
      (all_patents <- for_pages cfg env (page_range cfg) [] ;;
       log (LogTotal (length all_patents)) ;;;
       ret all_patents)
      (close_driver env).

(** ** [main] and the exit status of the script *)

Definition main (cfg : PatentScraperConfig) (env : run_env) : M unit :=
  call EvMkdir (mkdir_result env) ;;;
  all_patents <- scrape_all_pages cfg env ;;
  match all_patents with
  | _ :: _ =>
      call EvWriteFile (write_result env 0) ;;;
      log (LogSaved (length all_patents)) ;;;
      call EvWriteFile (write_result env 1) ;;;
      log (LogSaved (length all_patents)) ;;;
      call EvWriteFile (write_result env 2) ;;;
      log LogCompleted
  | [] => log LogNoPatents
  end.



(** * Notions used in the statements *)

(** ** Words, titles, containers *)

Local Close Scope Z_scope.

(** A word: not empty, no white space in it. *)
Definition word (w : str) : Prop :=
  w <> [] /\ forallb (fun c => negb (is_space c)) w = true.

(** The marker starts and ends with a character that is not white space. *)
Definition visible_ends (n : str) : bool :=
  match n, rev n with
  | f :: _, l :: _ => negb (is_space f) && negb (is_space l)
  | _, _ => false
  end.

Definition leading_space (t : str) : bool :=
  match t with
  | c :: _ => is_space c
  | [] => false
  end.

(** The words of a title and its two halves at the floor midpoint, each
    joined by single spaces. *)
Definition words (t : str) : list str := split_ws t.
Definition first_half (t : str) : str :=
  join [SP] (firstn (length (words t) / 2) (words t)).
Definition second_half (t : str) : str :=
  join [SP] (skipn (length (words t) / 2) (words t)).

(** The title with each run of white space collapsed to a single space and
    the surrounding white space trimmed, as the specification words it. *)
Definition collapse_whitespace (t : str) : str := strip (re_sub_ws t).

Definition duplicated_halves (t : str) : Prop :=
  10 < length (words t) /\ first_half t = strip (second_half t).

(** ** The title rule, read on its own

    The rule for titles written a second time, word for word as it is
    stated and without the helpers that [clean_patent_title] calls, so that
    the two can be compared.  These definitions embed no code. *)

(** The words of a title, its maximal runs of characters that are not
    white space.  [cur] is the word being read, its last character
    first. *)
Fixpoint spec_words_from (cur : str) (t : str) : list str :=
  match t with
  | [] => match cur with [] => [] | _ => [rev cur] end
  | c :: t' =>
      if is_space c then
        match cur with
        | [] => spec_words_from [] t'
        | _ => rev cur :: spec_words_from [] t'
        end
      else spec_words_from (c :: cur) t'
  end.

Definition spec_words (t : str) : list str := spec_words_from [] t.

(** Words joined by single spaces. *)
Definition spec_unwords (ws : list str) : str :=
  match ws with
  | [] => []
  | w :: rest => w ++ concat (map (cons SP) rest)
  end.

(** Trimming: the white space at the two ends is removed. *)
Fixpoint spec_trim_left (s : str) : str :=
  match s with
  | [] => []
  | c :: s' => if is_space c then spec_trim_left s' else s
  end.

Definition spec_trim (s : str) : str :=
  rev (spec_trim_left (rev (spec_trim_left s))).

(** Each run of white space collapsed to a single space, which is written
    at the first character of the run; [in_run] tells that the character
    before was white space. *)
Fixpoint spec_collapse_from (in_run : bool) (t : str) : str :=
  match t with
  | [] => []
  | c :: t' =>
      if is_space c then
        if in_run then spec_collapse_from true t'
        else SP :: spec_collapse_from true t'
      else c :: spec_collapse_from false t'
  end.

(** The title with each run of white space collapsed to a single space and
    the surrounding white space trimmed. *)
Definition spec_collapse_whitespace (t : str) : str :=
  spec_trim (spec_collapse_from false t).

(** The two halves of the words at the floor midpoint, each joined by
    single spaces. *)
Definition spec_first_half (t : str) : str :=
  spec_unwords (firstn (length (spec_words t) / 2) (spec_words t)).

Definition spec_second_half (t : str) : str :=
  spec_unwords (skipn (length (spec_words t) / 2) (spec_words t)).

(** More than 10 words, and the first half equals the second half after
    trimming. *)
Definition spec_duplicated_halves (t : str) : Prop :=
  10 < length (spec_words t) /\
  spec_first_half t = spec_trim (spec_second_half t).

Definition has_skip_indicator (item : element) : Prop :=
  exists ind, In ind skip_indicators /\ contains ind (get_text item) = true.

Definition all_valid (l : list PatentData) : Prop :=
  Forall (fun p => is_valid p = true) l.

(** ** Events of a run *)

Local Open Scope Z_scope.

(** Events that occur inside a page scrape after the navigation: no
    navigation, no driver start or stop, no sleep of the driver loop, no
    retry message. *)
Definition quiet (ev : event) : bool :=
  match ev with
  | EvWaitUntilNot | EvFindBody | EvPageSource | EvSleep Settle _ => true
  | EvLog (LogStillLoading _) | EvLog (LogPlaceholder _)
  | EvLog (LogNotLoaded _) | EvLog (LogFoundRows _) | EvLog (LogFound _ _)
  | EvLog (LogTimeout _) | EvLog (LogPageError _) => true
  | _ => false
  end.

(** The events of the page loop: a page scrape or the rate-limit sleep. *)
Definition loop_event (cfg : PatentScraperConfig) (ev : event) : bool :=
  match ev with
  | EvLog (LogScraping _) | EvGet _ => true
  | EvSleep RateLimit secs => secs =? rate_limit_delay cfg
  | _ => quiet ev
  end.

(** The events of the retry branch of the driver loop. *)
Definition retry_event (ev : event) : bool :=
  match ev with
  | EvSleep Backoff _ | EvLog (LogRetry _ _)
  | EvLog (LogFailedAfterRetries _) => true
  | _ => false
  end.


(** The only visit that the loop makes to a page: none when
    [max_retries] is not positive. *)
Definition attempt (cfg : PatentScraperConfig) (env : run_env) (page : Z)
  : M (list PatentData) :=
  if 0 <? max_retries cfg
  then scrape_patent_page (pages env page 0%nat) page
  else ret [].

Definition rate_sleep (cfg : PatentScraperConfig) : event :=
  EvSleep RateLimit (rate_limit_delay cfg).

(** What the [for] loop does, page after page: the visit, then the
    rate-limit sleep, unless the visit was interrupted; the loop goes on
    when the sleep does not raise. *)
Fixpoint pages_trace (cfg : PatentScraperConfig) (env : run_env) (d : bool)
    (ps : list Z) : list event :=
  match ps with
  | [] => []
  | page :: rest =>
      let a := attempt cfg env page d in
      trace a ++ match out a with
                 | Ok _ =>
                     rate_sleep cfg ::
                     (if sleep_refused (rate_limit_delay cfg) then []
                      else pages_trace cfg env d rest)
                 | _ => []
                 end
  end.

Fixpoint pages_out (cfg : PatentScraperConfig) (env : run_env) (d : bool)
    (ps : list Z) (acc : list PatentData) : outcome (list PatentData) :=
  match ps with
  | [] => Ok acc
  | page :: rest =>
      match out (attempt cfg env page d) with
      | Ok l =>
          if sleep_refused (rate_limit_delay cfg) then Raise OtherException
          else pages_out cfg env d rest (acc ++ l)
      | Raise e => Raise e
      | Interrupted => Interrupted
      end
  end.

Definition setup_ok_trace : list event :=
  [EvStartChrome; EvExecuteScript; EvLog LogDriverReady].

Definition setup_failed_logs : list event :=
  [EvLog LogDriverError; EvLog LogInstallChrome].

(** The events of the [finally] block when the driver is set. *)
Definition closing (env : run_env) : list event :=
  EvQuit :: match quit_result env with
            | Ok _ => [EvLog LogDriverClosed]
            | _ => []
            end.

Definition total_log (o : outcome (list PatentData)) : list event :=
  match o with
  | Ok l => [EvLog (LogTotal (length l))]
  | _ => []
  end.

(** No page of the range is interrupted at its visit. *)
Definition uninterrupted (cfg : PatentScraperConfig) (env : run_env) : Prop :=
  forall p, In p (page_range cfg) ->
    out (attempt cfg env p true) <> Interrupted.

Definition wait_timed_out_or_not (pe : page_env) : Prop :=
  until_not_result pe = Ok tt \/ until_not_result pe = Raise TimeoutException.

(** The exception [e] comes up in the [try] block of the page scrape: out
    of the navigation, out of the readiness check, or out of the parsing
    of the page source. *)
Definition raised_in_page (pe : page_env) (page : Z) (d : bool) (e : exn)
  : Prop :=
  get_result pe = Raise e
  \/ (get_result pe = Ok tt
      /\ out (wait_for_content_load pe page d) = Raise e)
  \/ (get_result pe = Ok tt
      /\ out (wait_for_content_load pe page d) = Ok true
      /\ page_source pe = Raise e).

(** ** Time *)




(** * Sample inputs *)

Definition good_row : element :=
  {| get_text := py "Widget Improvement CA1234567";
     sel_result_title := Some (py "Widget Improvement");
     sel_publication_number := Some (py "CA1234567");
     sel_organisation_a := None; sel_ip_type_span := None;
     sel_filed := None; sel_date_added := None;
     sel_invention_description := None; sel_desktop_display := None |}.

Definition ready_page : page_env :=
  {| get_result := Ok tt; until_not_result := Ok tt;
     body_text := Ok (py "Widget Improvement CA1234567");
     page_source := Ok {| tr_ng_scope := [good_row]; all_divs := [] |} |}.

(** A page that shows the "no results" text at every visit. *)
Definition never_ready_page : page_env :=
  {| get_result := Ok tt; until_not_result := Ok tt;
     body_text := Ok (py "Your search found no results");
     page_source := Ok {| tr_ng_scope := []; all_divs := [] |} |}.

(** A page whose "Searching..." text never went away within the timeout but
    whose body text, read after the wait, holds no placeholder. *)
Definition slow_page : page_env :=
  {| get_result := Ok tt; until_not_result := Raise TimeoutException;
     body_text := Ok (py "Widget Improvement CA1234567");
     page_source := Ok {| tr_ng_scope := [good_row]; all_divs := [] |} |}.

(** A page on which the browser session is lost after the wait: reading
    the body text fails. *)
Definition lost_session_page : page_env :=
  {| get_result := Ok tt; until_not_result := Ok tt;
     body_text := Raise WebDriverException;
     page_source := Ok {| tr_ng_scope := []; all_divs := [] |} |}.

(** A page whose navigation fails. *)
Definition unreachable_page : page_env :=
  {| get_result := Raise WebDriverException; until_not_result := Ok tt;
     body_text := Ok []; page_source := Ok {| tr_ng_scope := []; all_divs := [] |} |}.

Definition env_of (pe : Z -> nat -> page_env) : run_env :=
  {| chrome_result := Ok tt; script_result := Ok tt; pages := pe;
     quit_result := Ok tt; mkdir_result := Ok tt;
     write_result := fun _ => Ok tt |}.

(** An environment in which Chrome does not start. *)
Definition no_browser_env : run_env :=
  {| chrome_result := Raise WebDriverException; script_result := Ok tt;
     pages := fun _ _ => ready_page; quit_result := Ok tt;
     mkdir_result := Ok tt; write_result := fun _ => Ok tt |}.

(** An environment in which Chrome starts but the scripts run right after
    fail. *)
Definition script_failure_env : run_env :=
  {| chrome_result := Ok tt; script_result := Raise WebDriverException;
     pages := fun _ _ => ready_page; quit_result := Ok tt;
     mkdir_result := Ok tt; write_result := fun _ => Ok tt |}.

Definition one_page (max : Z) : PatentScraperConfig :=
  {| start_page := 1; end_page := 1; timeout := 30;
     rate_limit_delay := 5; max_retries := max |}.

(** A configuration whose delay [time.sleep] refuses as negative. *)
Definition negative_delay : PatentScraperConfig :=
  {| start_page := 1; end_page := 2; timeout := 30;
     rate_limit_delay := -1; max_retries := 3 |}.

(** A configuration whose delay is too long for [time.sleep]. *)
Definition oversized_delay : PatentScraperConfig :=
  {| start_page := 1; end_page := 2; timeout := 30;
     rate_limit_delay := 10000000000; max_retries := 3 |}.

(** Two pages, each of them ready. *)
Definition two_pages : PatentScraperConfig :=
  {| start_page := 1; end_page := 2; timeout := 30;
     rate_limit_delay := 5; max_retries := 3 |}.

(** A record whose title is one space and whose other fields are empty. *)
Definition blank_title : PatentData :=
  {| title := py " "; patent_number := []; organization := [];
     patent_type := []; year := []; date_added := []; url := [];
     description := [] |}.

Definition widget_record : PatentData :=
  {| title := py "Widget Improvement"; patent_number := py "CA1234567";
     organization := []; patent_type := []; year := []; date_added := [];
     url := []; description := [] |}.

(** A row of the search form: it has every selector of a patent row, and
    its text holds "Keyword search". *)
Definition keyword_row : element :=
  {| get_text := py "Keyword search Widget Improvement CA1234567";
     sel_result_title := Some (py "Widget Improvement");
     sel_publication_number := Some (py "CA1234567");
     sel_organisation_a := Some (py "Acme");
     sel_ip_type_span := None; sel_filed := None; sel_date_added := None;
     sel_invention_description := None; sel_desktop_display := None |}.

Definition doubled_title : str := py "a b c d e f  a b c d e f".
Definition messy_title : str := py "  Test   Patent   Title  ".

(** Twelve words, the two halves differ in the last word. *)
Definition near_doubled_title : str :=
  py " a b c d e f   a b c d e g ".

(** Eleven words written twice, and twenty-two words that differ. *)
Definition long_doubled_title : str :=
  py "a b c d e f g h i j k  a b c d e f g h i j k".
Definition long_title : str :=
  py "a b c d e f g h i j k  l m n o p q r s t u v".

(** * More of the scraper and of its users *)

Local Close Scope Z_scope.

(** ** The title normalizer on lists of words *)

(** The test of [clean_patent_title] on the words of a title: more than 10
    words, and the two halves joined by spaces are the same text. *)
Definition halves_equal (ws : list str) : bool :=
  (10 <? length ws)
  && str_eqb (join [SP] (firstn (length ws / 2) ws))
             (strip (join [SP] (skipn (length ws / 2) ws))).

(** The words that [clean_patent_title] keeps. *)
Definition clean_words (ws : list str) : list str :=
  if halves_equal ws then firstn (length ws / 2) ws else ws.

(** Four copies of a six-word title. *)
Definition fourfold_title : str :=
  py "a b c d e f a b c d e f a b c d e f a b c d e f".

(** ** Records as the extractor builds them *)

Definition site_prefix : str := py "https://ised-isde.canada.ca".

(** No white space at either end. *)
Definition stripped (s : str) : Prop := strip s = s.

(** Every text field is stripped, and the URL is empty or is the site
    followed by a link that is not empty. *)
Definition well_formed (p : PatentData) : Prop :=
  stripped (title p) /\ stripped (patent_number p) /\
  stripped (organization p) /\ stripped (patent_type p) /\
  stripped (year p) /\ stripped (date_added p) /\
  stripped (description p) /\
  (url p = [] \/ exists href, href <> [] /\ url p = site_prefix ++ href).

(** The lines of the container's text as the title fallback sees them. *)
Definition text_lines (item : element) : list str :=
  filter truthy (map strip (split_on NL (strip (get_text item)))).

(** A container with a number and a title but no link. *)
Definition padded_row : element :=
  {| get_text := py "  Widget   Improvement  CA1234567 ";
     sel_result_title := Some (py " Widget   Improvement ");
     sel_publication_number := Some (py " CA1234567 ");
     sel_organisation_a := None; sel_ip_type_span := None;
     sel_filed := None; sel_date_added := None;
     sel_invention_description := None;
     sel_desktop_display := Some (Some (py "/ipm-mcpi/1")) |}.

(** A container without any of the selectors and with short lines only. *)
Definition short_block : element :=
  {| get_text := py "Page 1
of 20";
     sel_result_title := None; sel_publication_number := None;
     sel_organisation_a := Some (py "Acme"); sel_ip_type_span := None;
     sel_filed := None; sel_date_added := None;
     sel_invention_description := None; sel_desktop_display := None |}.

(** ** Navigations in a trace *)

(** The pages of the [driver.get] calls of a trace, in order. *)
Definition navigated (t : list event) : list Z :=
  flat_map (fun ev => match ev with EvGet p => [p] | _ => [] end) t.

Local Open Scope Z_scope.

(** ** Results of a run *)


(** The number of files that a trace writes. *)
Definition file_writes (t : list event) : nat :=
  length (filter (fun ev => match ev with EvWriteFile => true | _ => false end)
                 t).

(** The events of [scrape_all_pages]: those of the page loop, those of
    [setup_driver], the totals and the [finally] block. *)
Definition run_event (cfg : PatentScraperConfig) (ev : event) : bool :=
  loop_event cfg ev ||
  match ev with
  | EvStartChrome | EvExecuteScript | EvQuit => true
  | EvLog LogDriverReady | EvLog LogDriverError | EvLog LogInstallChrome
  | EvLog LogSetupFailed | EvLog (LogTotal _) | EvLog LogDriverClosed => true
  | _ => false
  end.

(** A page range that is empty. *)
Definition empty_range : PatentScraperConfig :=
  {| start_page := 5; end_page := 4; timeout := 30;
     rate_limit_delay := 5; max_retries := 3 |}.

(** A page whose visit is interrupted during the navigation. *)
Definition interrupted_page : page_env :=
  {| get_result := Interrupted; until_not_result := Ok tt;
     body_text := Ok []; page_source := Ok {| tr_ng_scope := []; all_divs := [] |} |}.

(** An environment in which the first file cannot be written. *)
Definition read_only_env : run_env :=
  {| chrome_result := Ok tt; script_result := Ok tt;
     pages := fun _ _ => ready_page; quit_result := Ok tt;
     mkdir_result := Ok tt;
     write_result := fun n => match n with
                              | O => Raise OtherException
                              | _ => Ok tt
                              end |}.

(** ** [main]: the files and the summary (lines 387-424) *)

(** The part of [main] that follows the run. *)
Definition save_results (env : run_env) (all_patents : list PatentData)
  : M unit :=
  match all_patents with
  | _ :: _ =>
      call EvWriteFile (write_result env 0) ;;;
      log (LogSaved (length all_patents)) ;;;
      call EvWriteFile (write_result env 1) ;;;
      log (LogSaved (length all_patents)) ;;;
      call EvWriteFile (write_result env 2) ;;;
      log LogCompleted
  | [] => log LogNoPatents
  end.

(** A Python [set] of strings, as the list of its elements in the order
    of their first insertion. *)
Definition set_add (s : list str) (x : str) : list str :=
  if existsb (fun k => str_eqb k x) s then s else s ++ [x].

Definition set_of (xs : list str) : list str := fold_left set_add xs [].

Module Summary.

(** The counts of the summary that [main] writes; its dates and file names
    are left out. *)
Record t : Type := mk {
  total_patents : nat;
  pages_scraped : list Z;
  patents_with_titles : nat;
  patents_with_numbers : nat;
  unique_organizations : nat
}.

End Summary.

Definition summary (cfg : PatentScraperConfig) (all_patents : list PatentData)
  : Summary.t :=
  {| Summary.total_patents := length all_patents;
     Summary.pages_scraped := page_range cfg;
     Summary.patents_with_titles :=
       length (filter (fun p => truthy (title p)) all_patents);
     Summary.patents_with_numbers :=
       length (filter (fun p => truthy (patent_number p)) all_patents);
     Summary.unique_organizations :=
       length (set_of (map organization
                           (filter (fun p => truthy (organization p))
                                   all_patents))) |}.

(** ** [PatentScraperConfig.__init__] (lines 63-89) *)

(** A parsed JSON value, as far as the loader tells them apart: integers,
    strings, objects (the items of the Python [dict], keys distinct), and
    the rest ([null], booleans, floats, arrays).  Only an object has a
    [get] method. *)
Inductive json : Type :=
| JInt (n : Z)
| JString (s : str)
| JObject (items : json_items)
| JOther
with json_items : Type :=
| JNil
| JCons (key : str) (value : json) (rest : json_items).

(** What [open('config.json')] and [json.load] give: the two exceptions
    that the loader catches, any other exception, or the parsed value. *)
Inductive config_file : Type :=
| FileNotFound
| InvalidJSON
| Unreadable (e : exn)
| Loaded (j : json).

Fixpoint items_get (items : json_items) (key : str) : option json :=
  match items with
  | JNil => None
  | JCons k v rest => if str_eqb k key then Some v else items_get rest key
  end.

(** [j.get(key, default)]; [AttributeError] when [j] is not a [dict]. *)
Definition json_get (j : json) (key : str) (default : json) : outcome json :=
  match j with
  | JObject items =>
      Ok (match items_get items key with
          | Some v => v
          | None => default
          end)
  | _ => Raise OtherException
  end.

Module ConfigFile.

(** The attributes that the loader sets, with the values of the file as
    they are: nothing checks their types. *)
Record t : Type := mk {
  base_url : json;
  start_page : json;
  end_page : json;
  timeout : json;
  rate_limit_delay : json;
  max_retries : json
}.

End ConfigFile.

Definition default_base_url : str :=
  py "https://ised-isde.canada.ca/ipm-mcpi/patents-brevets".

(** The fallback of the [except] branch. *)
Definition default_loaded : ConfigFile.t :=
  {| ConfigFile.base_url := JString default_base_url;
     ConfigFile.start_page := JInt 1;
     ConfigFile.end_page := JInt 20;
     ConfigFile.timeout := JInt 30;
     ConfigFile.rate_limit_delay := JInt 5;
     ConfigFile.max_retries := JInt 3 |}.

Definition outcome_bind {A B} (o : outcome A) (k : A -> outcome B)
  : outcome B :=
  match o with
  | Ok a => k a
  | Raise e => Raise e
  | Interrupted => Interrupted
  end.

(** The [try] block and its [except (FileNotFoundError, JSONDecodeError)]. *)
Definition load_config (f : config_file) : outcome ConfigFile.t :=
  match f with
  | FileNotFound | InvalidJSON => Ok default_loaded
  | Unreadable e => Raise e
  | Loaded config_data =>
      outcome_bind (json_get config_data (py "scraper") (JObject JNil))
        (fun scraper_config =>
      outcome_bind (json_get scraper_config (py "base_url")
                      (JString default_base_url)) (fun base_url =>
      outcome_bind (json_get scraper_config (py "start_page") (JInt 1))
        (fun start_page =>
      outcome_bind (json_get scraper_config (py "end_page") (JInt 20))
        (fun end_page =>
      outcome_bind (json_get scraper_config (py "timeout") (JInt 30))
        (fun timeout =>
      outcome_bind (json_get scraper_config (py "rate_limit_delay") (JInt 5))
        (fun rate_limit_delay =>
      outcome_bind (json_get scraper_config (py "max_retries") (JInt 3))
        (fun max_retries =>
      Ok (ConfigFile.mk base_url start_page end_page timeout
            rate_limit_delay max_retries))))))))
  end.

(** The configuration that the driver reads, when the five numbers are
    integers. *)
Definition config_of (c : ConfigFile.t) : option PatentScraperConfig :=
  match ConfigFile.start_page c, ConfigFile.end_page c, ConfigFile.timeout c,
        ConfigFile.rate_limit_delay c, ConfigFile.max_retries c with
  | JInt s, JInt e, JInt t, JInt r, JInt m => Some (mkConfig s e t r m)
  | _, _, _, _, _ => None
  end.

(** The ['scraper'] entry of the file is missing or is an object. *)
Definition scraper_entry_usable (items : json_items) : Prop :=
  match items_get items (py "scraper") with
  | None | Some (JObject _) => True
  | Some _ => False
  end.

(** A file that sets the number of retries only. *)
Definition retries_only_file : config_file :=
  Loaded (JObject (JCons (py "scraper")
                     (JObject (JCons (py "max_retries") (JInt 7) JNil))
                     JNil)).

(** ** [PatentData.to_dict] (lines 52-54) and [analyze_patents] *)

(** A Python [dict] from strings to strings: its items in insertion order,
    keys distinct. *)
Definition dict : Type := list (str * str).

(** [d.get(key, default)]. *)
Fixpoint dict_get (d : dict) (key default : str) : str :=
  match d with
  | [] => default
  | (k, v) :: rest => if str_eqb k key then v else dict_get rest key default
  end.

(** [asdict(self)]: the fields in the order of their declaration. *)
Definition to_dict (p : PatentData) : dict :=
  [ (py "title", title p); (py "patent_number", patent_number p);
    (py "organization", organization p); (py "patent_type", patent_type p);
    (py "year", year p); (py "date_added", date_added p);
    (py "url", url p); (py "description", description p) ].

Definition field_names : list str :=
  [ py "title"; py "patent_number"; py "organization"; py "patent_type";
    py "year"; py "date_added"; py "url"; py "description" ].

(** A [collections.Counter] of strings: the keys in the order of their
    first count, each with its count. *)
Fixpoint counter_incr (c : list (str * nat)) (x : str) : list (str * nat) :=
  match c with
  | [] => [(x, 1%nat)]
  | (k, n) :: rest =>
      if str_eqb k x then (k, S n) :: rest else (k, n) :: counter_incr rest x
  end.

Definition Counter (xs : list str) : list (str * nat) :=
  fold_left counter_incr xs [].

(** [p.get(key, '').strip()] is not empty. *)
Definition has_field (key : str) (p : dict) : bool :=
  truthy (strip (dict_get p key [])).

(** [p.get(key, '') for p in patents if p.get(key, '').strip()]. *)
Definition field_values (key : str) (patents : list dict) : list str :=
  map (fun p => dict_get p key []) (filter (has_field key) patents).

Module Analysis.

Record t : Type := mk {
  total_patents : nat;
  patents_with_titles : nat;
  patents_with_numbers : nat;
  patents_with_organizations : nat;
  patents_with_years : nat;
  unique_organizations : nat;
  year_distribution : list (str * nat);
  organization_distribution : list (str * nat);
  patent_type_distribution : list (str * nat)
}.

End Analysis.

(** [analyze_patents] of [analyze_patents.py]; [None] is the empty
    dictionary that it returns for an empty list. *)
Definition analyze_patents (patents : list dict) : option Analysis.t :=
  match patents with
  | [] => None
  | _ =>
      Some
        {| Analysis.total_patents := length patents;
           Analysis.patents_with_titles :=
             length (filter (has_field (py "title")) patents);
           Analysis.patents_with_numbers :=
             length (filter (has_field (py "patent_number")) patents);
           Analysis.patents_with_organizations :=
             length (filter (has_field (py "organization")) patents);
           Analysis.patents_with_years :=
             length (filter (has_field (py "year")) patents);
           Analysis.unique_organizations :=
             length (set_of (field_values (py "organization") patents));
           Analysis.year_distribution :=
             Counter (field_values (py "year") patents);
           Analysis.organization_distribution :=
             Counter (field_values (py "organization") patents);
           Analysis.patent_type_distribution :=
             Counter (field_values (py "patent_type") patents) |}
  end.

(** The sum of the counts of a counter. *)
Definition counter_total (c : list (str * nat)) : nat :=
  fold_right (fun kn acc => (snd kn + acc)%nat) 0%nat c.

(** The keys that the loader reads in the ['scraper'] object. *)
Definition config_keys : list str :=
  [ py "base_url"; py "start_page"; py "end_page"; py "timeout";
    py "rate_limit_delay"; py "max_retries" ].

(** The file holds an object whose ['scraper'] entry is usable. *)
Definition config_shape_ok (j : json) : Prop :=
  match j with
  | JObject items => scraper_entry_usable items
  | _ => False
  end.

(** A file whose ['scraper'] entry is a number. *)
Definition scraper_number_file : json :=
  JObject (JCons (py "scraper") (JInt 3) JNil).

(** A dictionary without any of the fields. *)
Definition foreign_dict : dict := [(py "name", py "x")].

(** A record with an organization and a year. *)
Definition acme_record : PatentData :=
  {| title := py "Widget Improvement"; patent_number := py "CA1234567";
     organization := py "Acme"; patent_type := []; year := py "2021";
     date_added := []; url := []; description := [] |}.

(** ** [test_single_page] of [test_single_page.py] *)

Local Open Scope Z_scope.

(** The first part of its [try] block: the page is fetched and checked by
    hand and the page source is read.  The calls of [print] are left
    out. *)
Definition probe_page (pe : page_env) (source : outcome str) : M unit :=
  call (EvGet 1) (get_result pe) ;;;
  wait_for_content_load pe 1 ;;;
  call EvPageSource source ;;;
  ret tt.

(** The [try] block: the probe, then the scrape of the same page, which is
    its second visit, and the file when there are records. *)
Definition single_page_body (env : run_env) (source : outcome str) : M unit :=
  probe_page (pages env 1 0%nat) source ;;;
  patents <- scrape_patent_page (pages env 1 1%nat) 1 ;;
  match patents with
  | _ :: _ => call EvWriteFile (write_result env 0%nat)
  | [] => ret tt
  end.

(** The function from the construction of the scraper on, the
    configuration being loaded; [source] is what reading
    [scraper.driver.page_source] gives. *)
Definition test_single_page (env : run_env) (source : outcome str) : M unit :=
  call EvMkdir (mkdir_result env) ;;;
  ok <- setup_driver env ;;
  if negb ok then ret tt
  else try_finally (single_page_body env source)
                   (call EvQuit (quit_result env)).

(** The number of calls of [driver.quit()] in a trace. *)
Definition quits (t : list event) : nat :=
  length (filter (fun ev => match ev with EvQuit => true | _ => false end) t).

(** The scraper was built and its browser set up. *)
Definition browser_started (env : run_env) : Prop :=
  mkdir_result env = Ok tt /\ out (setup_driver env false) = Ok true.

Local Close Scope Z_scope.

(** * Tactics *)

Ltac run_M :=
  cbv [wait_for_content_load scrape_patent_page setup_driver close_driver
       bind ret call log sleep try_except try_finally get_driver set_driver
       any_Exception is_TimeoutException is_WebDriverException
       trace driver out app negb sleep_refused sleep_max
       Z.ltb Z.compare Pos.compare Pos.compare_cont
       get_result until_not_result body_text page_source].

(** Every way a page can answer, stopping at the first call that fails;
    [tac] closes each case. *)
Ltac page_cases pe tac :=
  let g := fresh "g" in let u := fresh "u" in
  let b := fresh "b" in let s := fresh "s" in
  let txt := fresh "txt" in let Hph := fresh "Hph" in
  destruct pe as [g u b s];
  destruct g as [[]|[]|]; [ | solve [run_M; tac] .. ];
  destruct u as [[]|[]|]; [ | | solve [run_M; tac] .. ];
  (destruct b as [txt|[]|]; [ | solve [run_M; tac] .. ]);
  (destruct (any_in placeholder_indicators txt) eqn:Hph;
   [ solve [run_M; rewrite Hph; cbv [negb app]; tac] | ]);
  destruct s as [[[|?row ?rows] ?divs]|[]|];
  solve [run_M; rewrite Hph; cbv [negb app]; tac].

(** * Facts about the text helpers *)

Local Close Scope Z_scope.

(** ** The titles of [test_scraper.py] *)

Example clean_messy :
  clean_patent_title (py "  Test   Patent   Title  ") = py "Test Patent Title".
Proof. reflexivity. Qed.

Example clean_short_duplicate :
  clean_patent_title (py "Test Patent Title Test Patent Title")
  = py "Test Patent Title Test Patent Title".
Proof. reflexivity. Qed.

Example clean_long_duplicate :
  clean_patent_title (py "a b c d e f  a b c d e f") = py "a b c d e f".
Proof. reflexivity. Qed.

(** ** Strings *)

Section StringFacts.

Implicit Types (s t w : str) (c : ascii) (ws : list str).

Lemma str_eqb_eq a b : str_eqb a b = true <-> a = b.
Proof.
  revert b; induction a as [|x a IH]; intros [|y b]; simpl;
    try (split; [discriminate | congruence]); try tauto.
  rewrite andb_true_iff, Ascii.eqb_eq, IH.
  split; [intros [-> ->]; reflexivity | intros [= -> ->]; auto].
Qed.

Lemma starts_with_spec needle hay :
  starts_with needle hay = true <-> exists b, hay = needle ++ b.
Proof.
  revert hay; induction needle as [|x n IH]; intros hay; simpl.
  - split; [intros _; now exists hay | reflexivity].
  - destruct hay as [|y h].
    + split; [discriminate | intros [b Hb]; discriminate].
    + rewrite andb_true_iff, Ascii.eqb_eq, IH. split.
      * intros [-> [b ->]]. now exists b.
      * intros [b [= -> ->]]. split; [reflexivity | now exists b].
Qed.

Lemma contains_spec needle hay :
  contains needle hay = true <-> exists a b, hay = a ++ needle ++ b.
Proof.
  induction hay as [|y h IH].
  - simpl. rewrite orb_false_r, starts_with_spec. split.
    + intros [b Hb]. now exists [], b.
    + intros [a [b Hab]].
      destruct a; [now exists b | discriminate].
  - cbn [contains]. rewrite orb_true_iff, starts_with_spec, IH. split.
    + intros [[b Hb] | [a [b Hab]]].
      * now exists [], b.
      * exists (y :: a), b. now rewrite Hab.
    + intros [[|x a] [b Hab]].
      * left. now exists b.
      * right. injection Hab as -> ->. now exists a, b.
Qed.

Lemma strip_nil : strip [] = [].
Proof. reflexivity. Qed.

Lemma lstrip_app_nonspace a c r :
  is_space c = false -> lstrip (a ++ c :: r) = lstrip a ++ c :: r.
Proof.
  intros Hc. unfold lstrip. induction a as [|x a IH]; simpl.
  - now rewrite Hc.
  - destruct (is_space x); [exact IH | reflexivity].
Qed.

Lemma rstrip_cons_nonspace c s :
  is_space c = false -> rstrip (c :: s) = c :: rstrip s.
Proof. intros Hc. simpl. rewrite Hc. now destruct (rstrip s). Qed.

Lemma rstrip_app_nonspace a c r :
  is_space c = false -> rstrip (a ++ c :: r) = a ++ c :: rstrip r.
Proof.
  intros Hc. induction a as [|x a IH].
  - now apply rstrip_cons_nonspace.
  - cbn [app rstrip]. rewrite IH. now destruct a.
Qed.

(** A marker with visible ends that is in a text is in the stripped text. *)
Lemma contains_strip n t :
  visible_ends n = true -> contains n t = true -> contains n (strip t) = true.
Proof.
  unfold visible_ends. intros Hn Ht.
  destruct n as [|f m]; [discriminate|].
  destruct (rev (f :: m)) as [|l k] eqn:Hrev; [discriminate|].
  apply andb_true_iff in Hn as [Hf Hl].
  apply negb_true_iff in Hf, Hl.
  assert (Hfm : f :: m = rev k ++ [l]).
  { rewrite <- (rev_involutive (f :: m)), Hrev. reflexivity. }
  apply contains_spec in Ht as [a [b ->]].
  apply contains_spec. exists (lstrip a), (rstrip b).
  unfold strip.
  change (a ++ (f :: m) ++ b) with (a ++ f :: (m ++ b)).
  rewrite lstrip_app_nonspace by exact Hf.
  change (f :: m ++ b) with ((f :: m) ++ b).
  rewrite Hfm, <- (app_assoc (rev k)), app_assoc. cbn [app].
  rewrite rstrip_app_nonspace by exact Hl.
  now rewrite <- !app_assoc.
Qed.

Lemma any_in_strip inds t :
  forallb visible_ends inds = true ->
  any_in inds t = true -> any_in inds (strip t) = true.
Proof.
  unfold any_in. intros Hv Ht.
  apply existsb_exists in Ht as [n [Hin Hn]].
  apply existsb_exists. exists n. split; [exact Hin|].
  apply contains_strip; [|exact Hn].
  rewrite forallb_forall in Hv. now apply Hv.
Qed.

End StringFacts.

(** ** Words, white-space runs and joining *)

Section TitleFacts.

Implicit Types (s t w : str) (c : ascii) (ws : list str).

Lemma split_ws_cons c s :
  split_ws (c :: s) =
  if is_space c then split_ws s
  else match s with
       | [] => [[c]]
       | d :: _ =>
           if is_space d then [c] :: split_ws s
           else match split_ws s with
                | w :: ws => (c :: w) :: ws
                | [] => [[c]]
                end
       end.
Proof. destruct s; reflexivity. Qed.

Lemma re_sub_ws_cons c s :
  re_sub_ws (c :: s) =
  if is_space c then
    match s with
    | d :: _ => if is_space d then re_sub_ws s else SP :: re_sub_ws s
    | [] => [SP]
    end
  else c :: re_sub_ws s.
Proof. destruct s; reflexivity. Qed.

Lemma split_ws_nonspace_ne c s :
  is_space c = false -> split_ws (c :: s) <> [].
Proof.
  intros Hc. rewrite split_ws_cons, Hc.
  destruct s as [|d s']; [discriminate|].
  destruct (is_space d); [discriminate|].
  destruct (split_ws (d :: s')); discriminate.
Qed.

Lemma word_single c : is_space c = false -> word [c].
Proof. intros Hc. split; [discriminate|]. simpl. now rewrite Hc. Qed.

Lemma word_cons c w : is_space c = false -> word w -> word (c :: w).
Proof.
  intros Hc [_ Hw]. split; [discriminate|]. simpl. now rewrite Hc.
Qed.

Lemma split_ws_words s : Forall word (split_ws s).
Proof.
  induction s as [|c s IH]; [constructor|].
  rewrite split_ws_cons.
  destruct (is_space c) eqn:Hc; [exact IH|].
  destruct s as [|d s'].
  - constructor; [now apply word_single | constructor].
  - destruct (is_space d).
    + constructor; [now apply word_single | exact IH].
    + destruct (split_ws (d :: s')) as [|w ws].
      * constructor; [now apply word_single | constructor].
      * inversion IH; subst.
        constructor; [now apply word_cons | assumption].
Qed.

(** A word followed by nothing or by white space is the first field. *)
Lemma split_ws_word_app w rest :
  word w ->
  match rest with [] => true | d :: _ => is_space d end = true ->
  split_ws (w ++ rest) = w :: split_ws rest.
Proof.
  intros [Hne Hw] Hrest. induction w as [|c w IH]; [congruence|].
  simpl in Hw. apply andb_true_iff in Hw as [Hc Hw].
  apply negb_true_iff in Hc.
  cbn [app]. rewrite split_ws_cons, Hc.
  destruct w as [|c' w'].
  - cbn [app]. destruct rest as [|d r]; [reflexivity|]. now rewrite Hrest.
  - specialize (IH ltac:(discriminate) Hw).
    cbn [app] in IH |- *. rewrite IH.
    simpl in Hw. apply andb_true_iff in Hw as [Hc' _].
    apply negb_true_iff in Hc'. now rewrite Hc'.
Qed.

Lemma split_join ws :
  Forall word ws -> split_ws (join [SP] ws) = ws.
Proof.
  induction 1 as [|w ws Hw Hws IH]; [reflexivity|].
  destruct ws as [|w2 ws'].
  - cbn [join]. rewrite <- (app_nil_r w) at 1.
    now rewrite split_ws_word_app.
  - change (join [SP] (w :: w2 :: ws'))
      with (w ++ SP :: join [SP] (w2 :: ws')).
    rewrite split_ws_word_app by (assumption || reflexivity).
    rewrite split_ws_cons. cbn [is_space]. f_equal. exact IH.
Qed.

Lemma rstrip_head t x r : rstrip t = x :: r -> exists t', t = x :: t'.
Proof.
  destruct t as [|c t']; [discriminate|]. simpl.
  destruct (rstrip t'); [destruct (is_space c)|];
    intros [= <- <-] || discriminate; now exists t'.
Qed.

Lemma rstrip_word w :
  forallb (fun c => negb (is_space c)) w = true -> rstrip w = w.
Proof.
  induction w as [|c w IH]; [reflexivity|]. simpl.
  intros Hw. apply andb_true_iff in Hw as [Hc Hw].
  apply negb_true_iff in Hc. rewrite (IH Hw), Hc. now destruct w.
Qed.

Lemma rstrip_app_fixed w x :
  rstrip x = x -> x <> [] -> rstrip (w ++ x) = w ++ x.
Proof.
  intros Hx Hne. induction w as [|c w IH]; [exact Hx|].
  cbn [app rstrip]. rewrite IH.
  destruct (w ++ x) eqn:E; [|reflexivity].
  apply app_eq_nil in E as [_ ->]. congruence.
Qed.

Lemma join_words_ne w ws : word w -> join [SP] (w :: ws) <> [].
Proof.
  intros [Hne _]. destruct ws; cbn [join]; [exact Hne|].
  destruct w; [congruence | discriminate].
Qed.

Lemma rstrip_join ws :
  Forall word ws -> rstrip (join [SP] ws) = join [SP] ws.
Proof.
  induction 1 as [|w ws Hw Hws IH]; [reflexivity|].
  destruct ws as [|w2 ws'].
  - cbn [join]. apply rstrip_word, Hw.
  - change (join [SP] (w :: w2 :: ws'))
      with (w ++ [SP] ++ join [SP] (w2 :: ws')).
    inversion Hws; subst.
    apply rstrip_app_fixed; [|discriminate].
    apply (rstrip_app_fixed [SP]); [exact IH|].
    now apply join_words_ne.
Qed.

Lemma lstrip_join ws :
  Forall word ws -> lstrip (join [SP] ws) = join [SP] ws.
Proof.
  intros [|w ws' [Hne Hw] _]; [reflexivity|].
  destruct w as [|c w']; [congruence|].
  simpl in Hw. apply andb_true_iff in Hw as [Hc _].
  apply negb_true_iff in Hc.
  unfold lstrip. destruct ws'; cbn [join app dropwhile]; now rewrite Hc.
Qed.

Lemma strip_join ws :
  Forall word ws -> strip (join [SP] ws) = join [SP] ws.
Proof.
  intros H. unfold strip. now rewrite lstrip_join, rstrip_join.
Qed.

End TitleFacts.

Section CollapseFacts.

Implicit Types (s t w : str) (c : ascii) (ws : list str).

Lemma join_cons_word c w ws :
  join [SP] ((c :: w) :: ws) = c :: join [SP] (w :: ws).
Proof. destruct ws; reflexivity. Qed.

(** Replacing the runs of white space of a right-stripped text gives its
    words joined by single spaces, after one more space when the text
    starts with white space and has a word. *)
Lemma re_sub_ws_rstrip t :
  re_sub_ws (rstrip t) =
  if leading_space t then
    match split_ws t with
    | [] => []
    | ws => SP :: join [SP] ws
    end
  else join [SP] (split_ws t).
Proof.
  induction t as [|c t IH]; [reflexivity|].
  cbn [leading_space]. rewrite split_ws_cons.
  destruct (is_space c) eqn:Hc.
  - cbn [rstrip]. rewrite Hc.
    destruct (rstrip t) as [|x r] eqn:Er.
    + cbn [re_sub_ws] in IH |- *.
      destruct t as [|d t']; [reflexivity|].
      cbn [leading_space] in IH.
      destruct (is_space d) eqn:Hd.
      * destruct (split_ws (d :: t')); [reflexivity | discriminate].
      * rewrite rstrip_cons_nonspace in Er by exact Hd. discriminate.
    + destruct (rstrip_head _ Er) as [t' ->].
      cbn [leading_space] in IH.
      rewrite re_sub_ws_cons, Hc.
      destruct (is_space x) eqn:Hx.
      * exact IH.
      * rewrite IH.
        destruct (split_ws (x :: t')) eqn:E; [|reflexivity].
        now apply split_ws_nonspace_ne in E.
  - rewrite rstrip_cons_nonspace by exact Hc.
    rewrite re_sub_ws_cons, Hc, IH.
    destruct t as [|d t']; [reflexivity|].
    cbn [leading_space].
    destruct (is_space d) eqn:Hd.
    + destruct (split_ws (d :: t')); reflexivity.
    + destruct (split_ws (d :: t')) eqn:E.
      * now apply split_ws_nonspace_ne in E.
      * now rewrite join_cons_word.
Qed.

Lemma lstrip_leading t : leading_space (lstrip t) = false.
Proof.
  unfold lstrip. induction t as [|c t IH]; [reflexivity|]. simpl.
  destruct (is_space c) eqn:Hc; [exact IH|]. simpl. exact Hc.
Qed.

Lemma split_ws_lstrip t : split_ws (lstrip t) = split_ws t.
Proof.
  unfold lstrip. induction t as [|c t IH]; [reflexivity|].
  rewrite split_ws_cons. cbn [dropwhile].
  destruct (is_space c) eqn:Hc; [exact IH|].
  now rewrite split_ws_cons, Hc.
Qed.

(** What the code computes first, [re.sub(r'\s+', ' ', title.strip())],
    is the words of the title joined by single spaces. *)
Lemma re_sub_ws_strip t : re_sub_ws (strip t) = join [SP] (split_ws t).
Proof.
  unfold strip.
  now rewrite re_sub_ws_rstrip, lstrip_leading, split_ws_lstrip.
Qed.

Lemma lstrip_re_sub_ws t : lstrip (re_sub_ws t) = re_sub_ws (lstrip t).
Proof.
  unfold lstrip. induction t as [|c t IH]; [reflexivity|].
  rewrite re_sub_ws_cons. cbn [dropwhile].
  destruct (is_space c) eqn:Hc.
  - destruct t as [|d t']; [reflexivity|].
    destruct (is_space d) eqn:Hd; [exact IH|].
    cbn [dropwhile] in IH |- *. rewrite Hd in IH |- *.
    change (is_space SP) with true. cbv iota. exact IH.
  - cbn [dropwhile]. rewrite Hc. now rewrite re_sub_ws_cons, Hc.
Qed.

(** The same words come out when the text is stripped on the right after
    its runs of white space are replaced. *)
Lemma rstrip_re_sub_ws t :
  rstrip (re_sub_ws t) =
  if leading_space t then
    match split_ws t with
    | [] => []
    | ws => SP :: join [SP] ws
    end
  else join [SP] (split_ws t).
Proof.
  induction t as [|c t IH]; [reflexivity|].
  cbn [leading_space]. rewrite split_ws_cons, re_sub_ws_cons.
  destruct (is_space c) eqn:Hc.
  - destruct t as [|d t']; [reflexivity|].
    cbn [leading_space] in IH.
    destruct (is_space d) eqn:Hd; [exact IH|].
    cbn [rstrip]. rewrite IH. change (is_space SP) with true.
    pose proof (split_ws_words (d :: t')) as Hw.
    destruct (split_ws (d :: t')) as [|w ws] eqn:E.
    + now apply split_ws_nonspace_ne in E.
    + inversion Hw; subst.
      destruct (join [SP] (w :: ws)) eqn:Ej; [|reflexivity].
      now apply join_words_ne in Ej.
  - rewrite rstrip_cons_nonspace by exact Hc. rewrite IH.
    destruct t as [|d t']; [reflexivity|].
    cbn [leading_space].
    destruct (is_space d) eqn:Hd.
    + destruct (split_ws (d :: t')); reflexivity.
    + destruct (split_ws (d :: t')) eqn:E.
      * now apply split_ws_nonspace_ne in E.
      * now rewrite join_cons_word.
Qed.

(** Collapsing then trimming gives the words joined by single spaces too:
    the two orders agree. *)
Lemma strip_re_sub_ws t : strip (re_sub_ws t) = join [SP] (split_ws t).
Proof.
  unfold strip.
  now rewrite lstrip_re_sub_ws, rstrip_re_sub_ws, lstrip_leading,
    split_ws_lstrip.
Qed.

End CollapseFacts.

(** ** C4: the title normalizer *)

Lemma Forall_take {A} (P : A -> Prop) n (l : list A) :
  Forall P l -> Forall P (firstn n l).
Proof.
  intros H. revert n. induction H; intros [|n]; simpl; constructor; auto.
Qed.

Lemma clean_patent_title_unfold t :
  clean_patent_title t =
  if (10 <? length (words t)) && str_eqb (first_half t) (strip (second_half t))
  then first_half t
  else collapse_whitespace t.
Proof.
  unfold first_half, second_half, collapse_whitespace, words.
  rewrite strip_re_sub_ws.
  destruct t as [|c t']; [reflexivity|].
  unfold clean_patent_title.
  set (t := c :: t').
  pose proof (split_ws_words t) as Hw.
  rewrite re_sub_ws_strip, (split_join Hw).
  rewrite (strip_join (Forall_take _ Hw)).
  destruct (10 <? length (split_ws t)); reflexivity.
Qed.

(** The cases of the normalizer, in the terms of the code. *)
Lemma clean_patent_title_cases (t : str) :
  (duplicated_halves t -> clean_patent_title t = first_half t) /\
  (~ duplicated_halves t -> clean_patent_title t = collapse_whitespace t).
Proof.
  rewrite clean_patent_title_unfold. unfold duplicated_halves.
  destruct (10 <? length (words t)) eqn:Hlen;
    [apply Nat.ltb_lt in Hlen | apply Nat.ltb_ge in Hlen];
    (destruct (str_eqb (first_half t) (strip (second_half t))) eqn:Heq;
     [apply str_eqb_eq in Heq|]); cbn [andb]; split; intros H;
    try reflexivity; try tauto; try (destruct H; lia).
  destruct H as [_ H]. apply str_eqb_eq in H. congruence.
Qed.

(** The rule read on its own agrees with the helpers of the code. *)

Lemma spec_trim_left_lstrip s : spec_trim_left s = lstrip s.
Proof.
  unfold lstrip. induction s as [|c s IH]; [reflexivity|].
  cbn. now rewrite IH.
Qed.

Lemma rstrip_snoc s c :
  rstrip (s ++ [c]) = if is_space c then rstrip s else s ++ [c].
Proof.
  destruct (is_space c) eqn:Hc.
  - induction s as [|a s IH]; cbn [app rstrip]; [now rewrite Hc|].
    now rewrite IH.
  - now rewrite rstrip_app_nonspace.
Qed.

Lemma spec_trim_right_rstrip s : rev (spec_trim_left (rev s)) = rstrip s.
Proof.
  induction s as [|c s IH] using rev_ind; [reflexivity|].
  rewrite rev_app_distr, rstrip_snoc. cbn [rev app spec_trim_left].
  destruct (is_space c); [exact IH|].
  cbn [rev]. now rewrite rev_involutive.
Qed.

Lemma spec_trim_strip s : spec_trim s = strip s.
Proof.
  unfold spec_trim, strip.
  now rewrite spec_trim_right_rstrip, spec_trim_left_lstrip.
Qed.

Lemma spec_unwords_join ws : spec_unwords ws = join [SP] ws.
Proof.
  destruct ws as [|w rest]; [reflexivity|]. revert w.
  induction rest as [|w' rest IH]; intros w.
  - cbn. now rewrite app_nil_r.
  - change (join [SP] (w :: w' :: rest))
      with (w ++ [SP] ++ join [SP] (w' :: rest)).
    rewrite <- IH. reflexivity.
Qed.

Lemma word_rev cur :
  cur <> [] -> forallb (fun c => negb (is_space c)) cur = true ->
  word (rev cur).
Proof.
  intros Hne Hc. split.
  - intros H. apply Hne. rewrite <- (rev_involutive cur), H. reflexivity.
  - rewrite forallb_forall in *. intros c Hin. apply Hc.
    now apply in_rev.
Qed.

Lemma spec_words_from_split t : forall cur,
  forallb (fun c => negb (is_space c)) cur = true ->
  spec_words_from cur t = split_ws (rev cur ++ t).
Proof.
  induction t as [|c t IH]; intros cur Hcur.
  - cbn [spec_words_from]. destruct cur as [|x cur]; [reflexivity|].
    rewrite (@split_ws_word_app (rev (x :: cur)) []);
      [reflexivity | now apply word_rev | reflexivity].
  - cbn [spec_words_from]. destruct (is_space c) eqn:Hc.
    + rewrite (IH [] eq_refl). change (rev [] ++ t) with t.
      destruct cur as [|x cur].
      * change (rev [] ++ c :: t) with (c :: t).
        now rewrite (split_ws_cons c t), Hc.
      * rewrite (@split_ws_word_app (rev (x :: cur)) (c :: t));
          [|now apply word_rev | exact Hc].
        now rewrite (split_ws_cons c t), Hc.
    + rewrite IH by (cbn [forallb]; now rewrite Hc).
      cbn [rev]. now rewrite <- app_assoc.
Qed.

Lemma spec_words_split t : spec_words t = split_ws t.
Proof. unfold spec_words. now rewrite spec_words_from_split. Qed.

Lemma spec_collapse_from_re_sub t :
  spec_collapse_from false t = re_sub_ws t /\
  (forall c0, is_space c0 = true ->
     SP :: spec_collapse_from true t = re_sub_ws (c0 :: t)).
Proof.
  induction t as [|c t [IH1 IH2]].
  - split; [reflexivity|]. intros c0 H0. cbn. now rewrite H0.
  - split.
    + cbn [spec_collapse_from]. destruct (is_space c) eqn:Hc.
      * now apply IH2.
      * rewrite IH1. cbn [re_sub_ws]. now rewrite Hc.
    + intros c0 H0.
      change (re_sub_ws (c0 :: c :: t))
        with (if is_space c0
              then if is_space c then re_sub_ws (c :: t)
                   else SP :: re_sub_ws (c :: t)
              else c0 :: re_sub_ws (c :: t)).
      rewrite H0. cbn [spec_collapse_from].
      destruct (is_space c) eqn:Hc.
      * now apply IH2.
      * rewrite IH1. cbn [re_sub_ws]. now rewrite Hc.
Qed.

Lemma spec_collapse_whitespace_eq t :
  spec_collapse_whitespace t = collapse_whitespace t.
Proof.
  unfold spec_collapse_whitespace, collapse_whitespace.
  now rewrite spec_trim_strip, (proj1 (spec_collapse_from_re_sub t)).
Qed.

Lemma spec_duplicated_halves_iff t :
  spec_duplicated_halves t <-> duplicated_halves t.
Proof.
  unfold spec_duplicated_halves, duplicated_halves, spec_first_half,
    spec_second_half, first_half, second_half, words.
  now rewrite spec_words_split, !spec_unwords_join, spec_trim_strip.
Qed.

(** C4. A title of more than 10 words whose first half (floor midpoint,
    joined by single spaces) equals its second half after trimming is
    replaced by the first half; every other title comes back with each run
    of white space collapsed to one space and the ends trimmed.  The words,
    the joining, the trimming and the collapsing are those of the rule read
    on its own, not the helpers that the code calls. *)
Theorem clean_patent_title_spec (t : str) :
  (spec_duplicated_halves t -> clean_patent_title t = spec_first_half t) /\
  (~ spec_duplicated_halves t ->
   clean_patent_title t = spec_collapse_whitespace t).
Proof.
  rewrite spec_duplicated_halves_iff, spec_collapse_whitespace_eq.
  unfold spec_first_half.
  rewrite spec_words_split, spec_unwords_join.
  exact (clean_patent_title_cases t).
Qed.

Lemma clean_patent_title_spec_witness :
  (spec_duplicated_halves doubled_title /\
   clean_patent_title doubled_title = py "a b c d e f") /\
  (~ spec_duplicated_halves messy_title /\
   clean_patent_title messy_title = py "Test Patent Title") /\
  (~ spec_duplicated_halves near_doubled_title /\
   clean_patent_title near_doubled_title = py "a b c d e f a b c d e g") /\
  (spec_duplicated_halves long_doubled_title /\
   clean_patent_title long_doubled_title = py "a b c d e f g h i j k") /\
  (~ spec_duplicated_halves long_title /\
   clean_patent_title long_title
   = py "a b c d e f g h i j k l m n o p q r s t u v").
Proof.
  assert (H1 : spec_duplicated_halves doubled_title).
  { split; [vm_compute; lia | reflexivity]. }
  assert (H2 : ~ spec_duplicated_halves messy_title).
  { intros [H _]. vm_compute in H. lia. }
  assert (H3 : ~ spec_duplicated_halves near_doubled_title).
  { intros [_ H]. vm_compute in H. discriminate H. }
  assert (H4 : spec_duplicated_halves long_doubled_title).
  { split; [vm_compute; lia | reflexivity]. }
  assert (H5 : ~ spec_duplicated_halves long_title).
  { intros [_ H]. vm_compute in H. discriminate H. }
  split; [|split; [|split; [|split]]]; split; try assumption.
  - exact (proj1 (clean_patent_title_spec doubled_title) H1).
  - exact (proj2 (clean_patent_title_spec messy_title) H2).
  - exact (proj2 (clean_patent_title_spec near_doubled_title) H3).
  - exact (proj1 (clean_patent_title_spec long_doubled_title) H4).
  - exact (proj2 (clean_patent_title_spec long_title) H5).
Defined.

(** ** The validity predicate *)

Lemma truthy_ne s : truthy s = true <-> s <> [].
Proof. destruct s; simpl; split; congruence. Qed.

Lemma is_valid_strip p :
  is_valid p = true <->
  strip (title p) <> [] \/ strip (patent_number p) <> [].
Proof.
  unfold is_valid. destruct (strip (title p)) as [|c r].
  - rewrite truthy_ne. split; [now right | intros [H | H]; congruence].
  - simpl. split; [intros _; left; discriminate | reflexivity].
Qed.

Lemma strip_ne s : strip s <> [] -> s <> [].
Proof. intros H ->. now apply H. Qed.

Lemma is_valid_nonempty p :
  is_valid p = true -> title p <> [] \/ patent_number p <> [].
Proof.
  intros H. apply is_valid_strip in H as [H | H];
    [left | right]; now apply strip_ne.
Qed.

(** ** The field extractor *)

Lemma skip_indicators_visible : forallb visible_ends skip_indicators = true.
Proof. reflexivity. Qed.

Lemma extract_skips item :
  any_in skip_indicators (get_text item) = true ->
  extract_patent_from_element item = None.
Proof.
  intros H. unfold extract_patent_from_element.
  now rewrite (any_in_strip _ _ skip_indicators_visible H).
Qed.

Lemma extract_valid item p :
  extract_patent_from_element item = Some p -> is_valid p = true.
Proof.
  unfold extract_patent_from_element.
  destruct (any_in skip_indicators (strip (get_text item))); [discriminate|].
  match goal with |- (if is_valid ?q then _ else _) = _ -> _ =>
    destruct (is_valid q) eqn:Hv end; [|discriminate].
  now intros [= <-].
Qed.

Lemma row_records_valid row : Forall (fun p => is_valid p = true) (row_records row).
Proof.
  unfold row_records. destruct (sel_result_title row); [|constructor].
  destruct (extract_patent_from_element row) eqn:E; simpl; constructor;
    [now apply (extract_valid row) | constructor].
Qed.

Lemma div_records_valid div : Forall (fun p => is_valid p = true) (div_records div).
Proof.
  unfold div_records.
  destruct (_ && _); [|constructor].
  destruct (extract_patent_from_element div) eqn:E; simpl; constructor;
    [now apply (extract_valid div) | constructor].
Qed.

Lemma flat_map_Forall {A B} (P : B -> Prop) (f : A -> list B) l :
  (forall a, Forall P (f a)) -> Forall P (flat_map f l).
Proof.
  intros H. induction l as [|a l IH]; simpl; [constructor|].
  apply Forall_app. split; [apply H | exact IH].
Qed.

Lemma page_records_valid s : Forall (fun p => is_valid p = true) (page_records s).
Proof.
  unfold page_records.
  pose proof (@flat_map_Forall _ _ _ row_records (tr_ng_scope s) row_records_valid) as Hr.
  destruct (flat_map row_records (tr_ng_scope s)); [|exact Hr].
  apply flat_map_Forall, div_records_valid.
Qed.

(** * Facts about pages and runs *)

(** ** The monad *)

Local Open Scope Z_scope.

Section MonadFacts.

Context {A B : Type}.
Implicit Types (m : M A) (k : A -> M B) (d : bool).

Lemma out_bind m k d :
  out (bind m k d) =
  match out (m d) with
  | Ok a => out (k a (driver (m d)))
  | Raise e => Raise e
  | Interrupted => Interrupted
  end.
Proof. unfold bind. now destruct (out (m d)). Qed.

Lemma trace_bind m k d :
  trace (bind m k d) =
  trace (m d) ++ match out (m d) with
                 | Ok a => trace (k a (driver (m d)))
                 | _ => []
                 end.
Proof. unfold bind. destruct (out (m d)); cbn; now rewrite ?app_nil_r. Qed.

Lemma driver_bind m k d :
  driver (bind m k d) =
  match out (m d) with
  | Ok a => driver (k a (driver (m d)))
  | _ => driver (m d)
  end.
Proof. unfold bind. now destruct (out (m d)). Qed.

(** A handler is not entered when the body does not raise. *)
Lemma try_except_no_raise catches m (h : exn -> M A) d :
  (forall e, out (m d) <> Raise e) -> try_except catches m h d = m d.
Proof.
  intros H. unfold try_except. destruct (out (m d)) eqn:E; try reflexivity.
  now destruct (H e).
Qed.

End MonadFacts.

(** [time.sleep] takes exactly the delays from 0 to [sleep_max]. *)
Lemma sleep_refused_false secs :
  sleep_refused secs = false <-> 0 <= secs <= sleep_max.
Proof.
  unfold sleep_refused. destruct (secs <? 0) eqn:Hn.
  - apply Z.ltb_lt in Hn. split; [discriminate | lia].
  - apply Z.ltb_ge in Hn. rewrite Z.ltb_ge. lia.
Qed.

(** ** One page *)

Lemma wait_for_content_load_driver pe page d :
  driver (wait_for_content_load pe page d) = d.
Proof.
  destruct pe as [g [[]|[]|] [txt|[]|] s]; run_M;
    try destruct (any_in placeholder_indicators txt); reflexivity.
Qed.

(** A page scrape logs, navigates once, then stays quiet; it leaves the
    driver attribute alone; it returns valid records or is interrupted,
    and never raises an exception. *)
Lemma scrape_patent_page_shape pe page d :
  let r := scrape_patent_page pe page d in
  (exists rest, trace r = EvLog (LogScraping page) :: EvGet page :: rest
                /\ forallb quiet rest = true)
  /\ driver r = d
  /\ (out r = Interrupted \/ exists l, out r = Ok l /\ all_valid l).
Proof.
  page_cases pe
    ltac:(split; [eexists; split; reflexivity|];
          split; [reflexivity|];
          first [ left; reflexivity
                | right; eexists; split; [reflexivity|];
                  first [ constructor; fail | apply page_records_valid ] ]).
Qed.

(** ** The driver loop *)

Lemma attempt_shape cfg env page d :
  let r := attempt cfg env page d in
  ((trace r = [] /\ max_retries cfg <= 0) \/
   (exists rest, trace r = EvLog (LogScraping page) :: EvGet page :: rest
                 /\ forallb quiet rest = true))
  /\ driver r = d
  /\ (out r = Interrupted \/ exists l, out r = Ok l /\ all_valid l).
Proof.
  unfold attempt. destruct (0 <? max_retries cfg) eqn:Hm.
  - destruct (scrape_patent_page_shape (pages env page 0%nat) page d)
      as (Ht & Hd & Ho).
    split; [right; exact Ht | split; assumption].
  - apply Z.ltb_ge in Hm. split; [left; split; [reflexivity | exact Hm]|].
    split; [reflexivity|]. right. exists []. split; [reflexivity | constructor].
Qed.

Lemma scrape_patent_page_no_raise pe page d e :
  out (scrape_patent_page pe page d) <> Raise e.
Proof.
  destruct (scrape_patent_page_shape pe page d) as (_ & _ & [H | [l [H _]]]);
    rewrite H; discriminate.
Qed.

(** The [while] loop ends at its first turn, by [break]: it is the visit of
    the page, or nothing when [max_retries] is not positive.  The fuel is
    never used up. *)
Lemma retry_loop_attempt cfg env page acc d :
  let r := retry_loop (Z.to_nat (max_retries cfg)) cfg env page 0 acc d in
  let a := attempt cfg env page d in
  trace r = trace a /\ driver r = driver a /\
  out r = match out a with
          | Ok l => Ok (acc ++ l)
          | Raise e => Raise e
          | Interrupted => Interrupted
          end.
Proof.
  unfold attempt. destruct (0 <? max_retries cfg) eqn:Hm.
  - destruct (Z.to_nat (max_retries cfg)) as [|n] eqn:Hn.
    { apply Z.ltb_lt in Hm. lia. }
    cbn [retry_loop]. rewrite Hm. change (Z.to_nat 0) with 0%nat.
    set (sp := scrape_patent_page (pages env page 0%nat) page).
    rewrite trace_bind, driver_bind, out_bind.
    rewrite try_except_no_raise.
    2:{ intros e. rewrite out_bind.
        pose proof (@scrape_patent_page_no_raise (pages env page 0%nat) page d).
        fold sp in H. destruct (out (sp d)); try discriminate.
        intros [= <-]. now apply (H e0). }
    rewrite trace_bind, driver_bind, out_bind.
    destruct (out (sp d)); cbn; rewrite ?app_nil_r; auto.
  - destruct (Z.to_nat (max_retries cfg));
      cbn [retry_loop]; rewrite Hm; cbn; rewrite app_nil_r; auto.
Qed.

Lemma page_step_attempt cfg env page acc d :
  let r := page_step cfg env page acc d in
  let a := attempt cfg env page d in
  trace r = trace a ++ match out a with
                       | Ok _ => [rate_sleep cfg]
                       | _ => []
                       end
  /\ driver r = d
  /\ out r = match out a with
             | Ok l =>
                 if sleep_refused (rate_limit_delay cfg) then Raise OtherException
                 else Ok (acc ++ l)
             | Raise e => Raise e
             | Interrupted => Interrupted
             end.
Proof.
  cbv zeta. unfold page_step.
  destruct (retry_loop_attempt cfg env page acc d) as (Ht & Hd & Ho).
  destruct (attempt_shape cfg env page d) as (_ & Hda & _).
  rewrite trace_bind, driver_bind, out_bind, Ht, Hd, Ho, Hda.
  destruct (out (attempt cfg env page d)); cbn; auto.
  unfold bind, sleep, call, ret, rate_sleep. cbn [trace out driver].
  destruct (sleep_refused (rate_limit_delay cfg)); cbn; auto.
Qed.

Lemma for_pages_spec cfg env ps : forall acc d,
  let r := for_pages cfg env ps acc d in
  trace r = pages_trace cfg env d ps /\ driver r = d /\
  out r = pages_out cfg env d ps acc.
Proof.
  induction ps as [|page rest IH]; intros acc d; [now cbn|].
  cbv zeta. cbn [for_pages pages_trace pages_out].
  destruct (page_step_attempt cfg env page acc d) as (Ht & Hd & Ho).
  rewrite trace_bind, driver_bind, out_bind, Ht, Hd, Ho.
  destruct (out (attempt cfg env page d)) as [l|e|].
  - destruct (sleep_refused (rate_limit_delay cfg)).
    + rewrite app_nil_r. auto.
    + destruct (IH (acc ++ l) d) as (Ht' & Hd' & Ho').
      rewrite Ht', Hd', Ho', <- app_assoc. auto.
  - rewrite app_nil_r. auto.
  - rewrite app_nil_r. auto.
Qed.

Lemma pages_out_valid cfg env d ps : forall acc l,
  all_valid acc -> pages_out cfg env d ps acc = Ok l -> all_valid l.
Proof.
  induction ps as [|page rest IH]; intros acc l Hacc; cbn [pages_out].
  - now intros [= <-].
  - destruct (attempt_shape cfg env page d) as (_ & _ & [Ho | [l' [Ho Hl']]]);
      rewrite Ho; [discriminate|].
    destruct (sleep_refused (rate_limit_delay cfg)); [discriminate|].
    apply IH. now apply Forall_app.
Qed.

Lemma quiet_loop_event cfg l :
  forallb quiet l = true -> forallb (loop_event cfg) l = true.
Proof.
  rewrite !forallb_forall. intros H ev Hin. specialize (H ev Hin).
  destruct ev as [| | | |[] ?| | | | | |[]]; try discriminate; reflexivity.
Qed.

Lemma attempt_loop_events cfg env page d :
  forallb (loop_event cfg) (trace (attempt cfg env page d)) = true.
Proof.
  destruct (attempt_shape cfg env page d)
    as ([[-> _] | [rest [-> Hq]]] & _ & _); [reflexivity|].
  cbn. now apply quiet_loop_event.
Qed.

Lemma pages_trace_loop_events cfg env d ps :
  forallb (loop_event cfg) (pages_trace cfg env d ps) = true.
Proof.
  induction ps as [|page rest IH]; [reflexivity|].
  cbn [pages_trace]. rewrite forallb_app, attempt_loop_events.
  destruct (out (attempt cfg env page d)); [|reflexivity..].
  cbn. rewrite Z.eqb_refl.
  destruct (sleep_refused (rate_limit_delay cfg)); [reflexivity | exact IH].
Qed.

(** ** The whole run *)

(** The five ways [setup_driver] can end. *)
Lemma setup_driver_cases env d :
  setup_driver env d =
  match chrome_result env with
  | Ok _ =>
      match script_result env with
      | Ok _ => mkResult setup_ok_trace true (Ok true)
      | Raise e =>
          if is_WebDriverException e
          then mkResult ([EvStartChrome; EvExecuteScript] ++ setup_failed_logs)
                        true (Ok false)
          else mkResult [EvStartChrome; EvExecuteScript] true (Raise e)
      | Interrupted => mkResult [EvStartChrome; EvExecuteScript] true Interrupted
      end
  | Raise e =>
      if is_WebDriverException e
      then mkResult (EvStartChrome :: setup_failed_logs) d (Ok false)
      else mkResult [EvStartChrome] d (Raise e)
  | Interrupted => mkResult [EvStartChrome] d Interrupted
  end.
Proof.
  destruct env as [c s p q m w]; destruct c as [[]|[]|], s as [[]|[]|];
    reflexivity.
Qed.

Lemma setup_driver_true env d :
  out (setup_driver env d) = Ok true ->
  setup_driver env d = mkResult setup_ok_trace true (Ok true).
Proof.
  rewrite setup_driver_cases.
  destruct (chrome_result env) as [[]|[]|], (script_result env) as [[]|[]|];
    cbn; congruence.
Qed.

Lemma close_driver_set env :
  close_driver env true =
  mkResult (closing env) true
    match quit_result env with
    | Ok _ => Ok tt
    | Raise e => Raise e
    | Interrupted => Interrupted
    end.
Proof.
  unfold close_driver, closing. run_M.
  destruct env as [c s p q m w]; destruct q as [[]|e|]; reflexivity.
Qed.

Lemma outcome_eq_dec_true (o : outcome bool) : {o = Ok true} + {o <> Ok true}.
Proof. destruct o as [[|]|e|]; (left; reflexivity) || (right; discriminate). Qed.

(** A run whose [setup_driver] returned [True]: the page loop, the total,
    then the [finally] block. *)
Lemma scrape_all_pages_started cfg env d :
  out (setup_driver env d) = Ok true ->
  let r := scrape_all_pages cfg env d in
  let o := pages_out cfg env true (page_range cfg) [] in
  trace r = setup_ok_trace ++ pages_trace cfg env true (page_range cfg)
            ++ total_log o ++ closing env
  /\ driver r = true
  /\ out r = match quit_result env with
             | Ok _ => o
             | Raise e => Raise e
             | Interrupted => Interrupted
             end.
Proof.
  intros Hs. apply setup_driver_true in Hs. cbv zeta.
  unfold scrape_all_pages.
  rewrite trace_bind, driver_bind, out_bind, Hs.
  cbn [out driver trace negb]. unfold try_finally. cbn [out driver trace].
  destruct (for_pages_spec cfg env (page_range cfg) [] true)
    as (Ht & Hd & Ho).
  rewrite trace_bind, driver_bind, out_bind, Ht, Hd, Ho.
  destruct (pages_out cfg env true (page_range cfg) []) as [l|e|];
    cbn [total_log]; rewrite close_driver_set; cbn [out driver trace];
    rewrite <- ?app_assoc; cbn;
    (split; [reflexivity | split; [reflexivity|]]);
    now destruct (quit_result env).
Qed.

(** A run whose [setup_driver] did not return [True] stops before the
    [try] block. *)
Lemma scrape_all_pages_not_started cfg env d :
  out (setup_driver env d) <> Ok true ->
  let r := scrape_all_pages cfg env d in
  let s := setup_driver env d in
  trace r = trace s ++ match out s with
                       | Ok _ => [EvLog LogSetupFailed]
                       | _ => []
                       end
  /\ driver r = driver s
  /\ out r = match out s with
             | Ok _ => Ok []
             | Raise e => Raise e
             | Interrupted => Interrupted
             end.
Proof.
  intros Hs. cbv zeta. unfold scrape_all_pages.
  rewrite trace_bind, driver_bind, out_bind.
  destruct (out (setup_driver env d)) as [[|]|e|]; try congruence;
    cbn; auto.
Qed.

Local Close Scope Z_scope.

(** * The claims on records, containers and pages *)

(** ** C5 *)

(** Against C5 as stated: a record whose title is a single space has a
    title that is not the empty string, yet it is not valid. *)
Lemma is_valid_blank_title_counterexample :
  ~ (is_valid blank_title = true <->
     (title blank_title <> [] \/ patent_number blank_title <> [])).
Proof.
  intros [_ H]. assert (Hv : is_valid blank_title = true).
  { apply H. left. discriminate. }
  discriminate Hv.
Qed.

(** C5, amended. A record is valid exactly when its title, stripped of
    surrounding white space, is not empty, or its patent number, stripped,
    is not empty.  The predicate is a total function of the record. *)
Theorem is_valid_spec (p : PatentData) :
  is_valid p = true <->
  (strip (title p) <> [] \/ strip (patent_number p) <> []).
Proof. apply is_valid_strip. Qed.

(** ** C7 *)

(** C7. A container whose full text holds a skip indicator gives no record,
    whatever its selectors would yield, and adds nothing to the records of
    the page, as a table row or as a fallback block. *)
Theorem skip_indicator_no_record (item : element) :
  has_skip_indicator item ->
  extract_patent_from_element item = None /\
  row_records item = [] /\ div_records item = [] /\
  (forall rows1 rows2 divs,
     page_records (mkSoup (rows1 ++ item :: rows2) divs)
     = page_records (mkSoup (rows1 ++ rows2) divs)) /\
  (forall rows divs1 divs2,
     page_records (mkSoup rows (divs1 ++ item :: divs2))
     = page_records (mkSoup rows (divs1 ++ divs2))).
Proof.
  intros [ind [Hin Hc]].
  assert (He : extract_patent_from_element item = None).
  { apply extract_skips. unfold any_in. apply existsb_exists. now exists ind. }
  assert (Hr : row_records item = []).
  { unfold row_records. rewrite He. now destruct (sel_result_title item). }
  assert (Hd : div_records item = []).
  { unfold div_records. rewrite He. now destruct (_ && _). }
  repeat split; try assumption.
  - intros rows1 rows2 divs. unfold page_records. cbn [tr_ng_scope all_divs].
    now rewrite !flat_map_app; cbn [flat_map]; rewrite Hr.
  - intros rows divs1 divs2. unfold page_records. cbn [tr_ng_scope all_divs].
    now rewrite !flat_map_app; cbn [flat_map]; rewrite Hd.
Qed.

Lemma skip_indicator_no_record_witness :
  has_skip_indicator keyword_row /\
  extract_patent_from_element keyword_row = None.
Proof.
  assert (H : has_skip_indicator keyword_row).
  { exists (py "Keyword search"). split; [right; left|]; reflexivity. }
  split; [exact H | exact (proj1 (skip_indicator_no_record H))].
Defined.

(** ** C8 *)

Lemma in_valid l p :
  all_valid l -> In p l ->
  is_valid p = true /\ (title p <> [] \/ patent_number p <> []).
Proof.
  intros Hl Hin. unfold all_valid in Hl. rewrite Forall_forall in Hl.
  split; [now apply Hl | apply is_valid_nonempty; now apply Hl].
Qed.

Lemma scrape_patent_page_valid pe page d l :
  out (scrape_patent_page pe page d) = Ok l -> all_valid l.
Proof.
  destruct (scrape_patent_page_shape pe page d)
    as (_ & _ & [Ho | [l' [Ho Hl']]]); rewrite Ho; [discriminate|].
  now intros [= <-].
Qed.

Lemma scrape_all_pages_valid cfg env d l :
  out (scrape_all_pages cfg env d) = Ok l -> all_valid l.
Proof.
  destruct (outcome_eq_dec_true (out (setup_driver env d))) as [Hs | Hs].
  - destruct (@scrape_all_pages_started cfg env d Hs) as (_ & _ & Ho).
    rewrite Ho. destruct (quit_result env); try discriminate.
    apply pages_out_valid. constructor.
  - destruct (@scrape_all_pages_not_started cfg env d Hs) as (_ & _ & Ho).
    rewrite Ho. destruct (out (setup_driver env d)); try discriminate.
    intros [= <-]. constructor.
Qed.

(** C8. Every record in the list of a page, on the table-row path and on
    the fallback path, and every record in the list that a run returns, is
    valid: its title or its patent number is not empty. *)
Theorem emitted_records_valid (p : PatentData) :
  (forall rows, In p (flat_map row_records rows) ->
     is_valid p = true /\ (title p <> [] \/ patent_number p <> [])) /\
  (forall divs, In p (flat_map div_records divs) ->
     is_valid p = true /\ (title p <> [] \/ patent_number p <> [])) /\
  (forall pe page d l, out (scrape_patent_page pe page d) = Ok l -> In p l ->
     is_valid p = true /\ (title p <> [] \/ patent_number p <> [])) /\
  (forall cfg env l, out (scrape_all_pages cfg env false) = Ok l -> In p l ->
     is_valid p = true /\ (title p <> [] \/ patent_number p <> [])).
Proof.
  split; [|split; [|split]].
  - intros rows. apply in_valid, flat_map_Forall, row_records_valid.
  - intros divs. apply in_valid, flat_map_Forall, div_records_valid.
  - intros pe page d l H. apply in_valid.
    now apply (scrape_patent_page_valid pe page d).
  - intros cfg env l H. apply in_valid.
    now apply (scrape_all_pages_valid cfg env false).
Qed.

Lemma emitted_records_valid_witness :
  (is_valid widget_record = true /\
   (title widget_record <> [] \/ patent_number widget_record <> [])) /\
  (is_valid widget_record = true /\
   (title widget_record <> [] \/ patent_number widget_record <> [])).
Proof.
  split.
  - refine (proj2 (proj2 (proj2 (emitted_records_valid widget_record)))
              (one_page 3) (env_of (fun _ _ => ready_page)) [widget_record]
              _ _).
    + vm_compute. reflexivity.
    + left. reflexivity.
  - refine (proj1 (emitted_records_valid widget_record) [good_row] _).
    left. reflexivity.
Defined.

(** ** C6 *)

(** Against C6 as stated: the check raises when the driver cannot read the
    body text. *)
Lemma wait_for_content_load_raises_counterexample :
  out (wait_for_content_load lost_session_page 1 true)
  = Raise WebDriverException.
Proof. reflexivity. Qed.

(** C6, amended. When the wait ends normally or by its timeout, and the
    body text can be read, the check returns; it returns false exactly when
    a placeholder marker is in that text; the timeout changes nothing to the
    result.  The check raises only what the driver raises: an exception of
    the wait other than its timeout, or one of reading the body text. *)
Theorem wait_for_content_load_spec (pe : page_env) (page : Z) (d : bool) :
  (forall txt,
     wait_timed_out_or_not pe -> body_text pe = Ok txt ->
     out (wait_for_content_load pe page d)
     = Ok (negb (any_in placeholder_indicators txt))
     /\ (out (wait_for_content_load pe page d) = Ok false <->
         exists m, In m placeholder_indicators /\ contains m txt = true)) /\
  (forall g b s,
     out (wait_for_content_load (mkPageEnv g (Raise TimeoutException) b s) page d)
     = out (wait_for_content_load (mkPageEnv g (Ok tt) b s) page d)) /\
  (forall e,
     out (wait_for_content_load pe page d) = Raise e ->
     (until_not_result pe = Raise e /\ e <> TimeoutException)
     \/ body_text pe = Raise e).
Proof.
  split; [|split].
  - intros txt Hw Hb.
    assert (Ho : out (wait_for_content_load pe page d)
                 = Ok (negb (any_in placeholder_indicators txt))).
    { destruct pe as [g u b s]. cbn in Hb. subst b.
      destruct Hw as [Hw | Hw]; cbn in Hw; subst u; run_M;
        destruct (any_in placeholder_indicators txt); reflexivity. }
    split; [exact Ho|]. rewrite Ho. unfold any_in.
    rewrite <- existsb_exists.
    destruct (existsb _ placeholder_indicators); cbn; split;
      congruence.
  - intros g b s. run_M.
    destruct b as [txt|e|]; reflexivity.
  - intros e. destruct pe as [g [[]|[]|] [txt|[]|] s]; run_M;
      try destruct (any_in placeholder_indicators txt); cbn;
      intros H; try discriminate H; injection H as <-;
      (right; reflexivity) || (left; split; [reflexivity | discriminate]).
Qed.

Lemma wait_for_content_load_spec_witness :
  out (wait_for_content_load slow_page 1 true)
  = Ok (negb (any_in placeholder_indicators (py "Widget Improvement CA1234567")))
  /\ ((until_not_result lost_session_page = Raise WebDriverException
       /\ WebDriverException <> TimeoutException)
      \/ body_text lost_session_page = Raise WebDriverException).
Proof.
  split.
  - refine (proj1 (proj1 (wait_for_content_load_spec slow_page 1 true)
                     (py "Widget Improvement CA1234567") _ _)).
    + right. reflexivity.
    + reflexivity.
  - refine (proj2 (proj2 (wait_for_content_load_spec lost_session_page 1 true))
              WebDriverException _).
    reflexivity.
Defined.

(** ** C10 *)

Lemma forallb_impl {A} (p q : A -> bool) l :
  (forall x, p x = true -> q x = true) ->
  forallb p l = true -> forallb q l = true.
Proof.
  intros Hpq. rewrite !forallb_forall. intros H x Hin. now apply Hpq, H.
Qed.

Lemma loop_event_not_retry cfg ev :
  loop_event cfg ev = true -> negb (retry_event ev) = true.
Proof. destruct ev as [| | | |[] ?| | | | | |[]]; cbn; congruence. Qed.

Lemma loop_event_not_quit cfg ev : loop_event cfg ev = true -> ev <> EvQuit.
Proof. intros H ->. discriminate H. Qed.

Lemma scrape_all_pages_no_retry cfg env d :
  forallb (fun ev => negb (retry_event ev))
          (trace (scrape_all_pages cfg env d)) = true.
Proof.
  destruct (outcome_eq_dec_true (out (setup_driver env d))) as [Hs | Hs].
  - destruct (@scrape_all_pages_started cfg env d Hs) as (Ht & _ & _).
    rewrite Ht, !forallb_app.
    rewrite (forallb_impl _ _ _ (loop_event_not_retry cfg)
               (pages_trace_loop_events cfg env true (page_range cfg))).
    unfold total_log, closing.
    destruct (pages_out _ _ _ _ _), (quit_result env); reflexivity.
  - destruct (@scrape_all_pages_not_started cfg env d Hs) as (Ht & _ & _).
    rewrite Ht, setup_driver_cases.
    destruct (chrome_result env) as [[]|[]|],
             (script_result env) as [[]|[]|]; reflexivity.
Qed.

(** C10. The page scrape never ends by an exception.  Whatever exception
    comes up in its [try] block, out of the navigation, the readiness check
    or the parsing, it returns the empty list.  Hence no run ever enters
    the retry branch of the driver loop: no retry message, no back-off
    sleep. *)
Theorem scrape_patent_page_catches_all :
  (forall pe page d e, out (scrape_patent_page pe page d) <> Raise e) /\
  (forall pe page d e,
     raised_in_page pe page d e ->
     out (scrape_patent_page pe page d) = Ok []) /\
  (forall cfg env,
     forallb (fun ev => negb (retry_event ev))
             (trace (scrape_all_pages cfg env false)) = true).
Proof.
  split; [|split].
  - intros pe page d e. apply scrape_patent_page_no_raise.
  - intros pe page d e H. unfold raised_in_page in H. revert H.
    page_cases pe
      ltac:(cbn; intros [H | [[H1 H2] | (H1 & H2 & H3)]]; congruence).
  - intros cfg env. apply scrape_all_pages_no_retry.
Qed.

Lemma scrape_patent_page_catches_all_witness :
  out (scrape_patent_page unreachable_page 1 true) = Ok [].
Proof.
  refine (proj1 (proj2 scrape_patent_page_catches_all)
            unreachable_page 1%Z true WebDriverException _).
  left. reflexivity.
Defined.

(** * The claims on runs *)

(** ** C2 *)

(** The exit paths on which the browser is closed.  In a run whose
    [setup_driver] returned [True], whatever the pages do (records,
    nothing, an exception or an interrupt in the middle), [driver.quit()]
    is called once, as the last browser call before [scrape_all_pages]
    returns or lets the exception through.  When [setup_driver] did not
    return [True], and so whenever the [driver] attribute was never set,
    [quit] is not called. *)
Proposition browser_closed_on_every_exit (cfg : PatentScraperConfig) (env : run_env) :
  (out (setup_driver env false) = Ok true ->
   exists before after,
     trace (scrape_all_pages cfg env false) = before ++ EvQuit :: after
     /\ ~ In EvQuit before
     /\ (after = [] \/ after = [EvLog LogDriverClosed])) /\
  (out (setup_driver env false) <> Ok true ->
   ~ In EvQuit (trace (scrape_all_pages cfg env false))) /\
  (driver (setup_driver env false) = false ->
   out (setup_driver env false) <> Ok true).
Proof.
  split.
  - intros Hs.
    destruct (@scrape_all_pages_started cfg env false Hs) as (Ht & _ & _).
    exists (setup_ok_trace ++ pages_trace cfg env true (page_range cfg)
            ++ total_log (pages_out cfg env true (page_range cfg) [])).
    exists (match quit_result env with
            | Ok _ => [EvLog LogDriverClosed]
            | _ => []
            end).
    split; [rewrite Ht; unfold closing; now rewrite <- !app_assoc|].
    split; [|destruct (quit_result env); auto].
    rewrite !in_app_iff. intros [H | [H | H]].
    + cbn in H. intuition discriminate.
    + pose proof (pages_trace_loop_events cfg env true (page_range cfg)) as Hl.
      rewrite forallb_forall in Hl.
      now apply (loop_event_not_quit cfg (Hl _ H)).
    + unfold total_log in H. destruct (pages_out _ _ _ _ _); cbn in H;
        intuition discriminate.
  - split.
    + intros Hs.
      destruct (@scrape_all_pages_not_started cfg env false Hs)
        as (Ht & _ & _).
      rewrite Ht. revert Hs. rewrite setup_driver_cases.
      destruct (chrome_result env) as [[]|[]|],
               (script_result env) as [[]|[]|]; cbn;
        intuition (discriminate || congruence).
    + intros Hd Hs. rewrite (setup_driver_true _ _ Hs) in Hd.
      discriminate Hd.
Qed.

Lemma browser_closed_on_every_exit_witness :
  (exists before after,
     trace (scrape_all_pages (one_page 3)
              (env_of (fun _ _ => ready_page)) false)
     = before ++ EvQuit :: after
     /\ ~ In EvQuit before
     /\ (after = [] \/ after = [EvLog LogDriverClosed])) /\
  ~ In EvQuit (trace (scrape_all_pages (one_page 3) no_browser_env false)).
Proof.
  split.
  - refine (proj1 (browser_closed_on_every_exit (one_page 3)
                     (env_of (fun _ _ => ready_page))) _).
    reflexivity.
  - refine (proj1 (proj2 (browser_closed_on_every_exit (one_page 3)
                            no_browser_env)) _).
    refine (proj2 (proj2 (browser_closed_on_every_exit (one_page 3)
                            no_browser_env)) _).
    reflexivity.
Defined.

(** An exception raised while the pages are processed: with a negative
    delay the first rate-limit sleep raises; the driver is closed and the
    exception goes on. *)
Example negative_delay_still_quits :
  let r := scrape_all_pages negative_delay
             (env_of (fun _ _ => ready_page)) false in
  out r = Raise OtherException /\
  trace r
  = [EvStartChrome; EvExecuteScript; EvLog LogDriverReady;
     EvLog (LogScraping 1); EvGet 1; EvWaitUntilNot; EvSleep Settle 5;
     EvFindBody; EvPageSource; EvLog (LogFoundRows 1); EvLog (LogFound 1 1);
     EvSleep RateLimit (-1); EvQuit; EvLog LogDriverClosed].
Proof. split; reflexivity. Qed.

(** The same with a delay that is too long: the run ends at the first
    rate-limit sleep, after one page of two. *)
Example oversized_delay_stops_after_first_page :
  let r := scrape_all_pages oversized_delay
             (env_of (fun _ _ => ready_page)) false in
  out r = Raise OtherException /\
  trace r
  = [EvStartChrome; EvExecuteScript; EvLog LogDriverReady;
     EvLog (LogScraping 1); EvGet 1; EvWaitUntilNot; EvSleep Settle 5;
     EvFindBody; EvPageSource; EvLog (LogFoundRows 1); EvLog (LogFound 1 1);
     EvSleep RateLimit 10000000000; EvQuit; EvLog LogDriverClosed].
Proof. split; reflexivity. Qed.

(** C2, the exit path that leaves the browser open.  When Chrome starts,
    so that the [driver] attribute is set, and the scripts run right after
    fail, [scrape_all_pages] ends before its [try] block: it visited no
    page, it returns the empty list when the failure is a
    [WebDriverException] and lets the exception through otherwise, the
    browser is still held, and [quit] was never called. *)
Theorem browser_left_open_when_scripts_fail
    (cfg : PatentScraperConfig) (env : run_env) :
  chrome_result env = Ok tt ->
  script_result env <> Ok tt ->
  let r := scrape_all_pages cfg env false in
  In EvStartChrome (trace r) /\ driver r = true /\
  ~ In EvQuit (trace r) /\ ~ (exists p, In (EvGet p) (trace r)) /\
  (forall e, script_result env = Raise e ->
     out r = if is_WebDriverException e then Ok [] else Raise e) /\
  (script_result env = Interrupted -> out r = Interrupted).
Proof.
  intros Hc Hsc. cbv zeta.
  assert (Hs : out (setup_driver env false) <> Ok true).
  { rewrite setup_driver_cases, Hc.
    destruct (script_result env) as [[]|e|]; [congruence| |discriminate].
    destruct (is_WebDriverException e); discriminate. }
  destruct (@scrape_all_pages_not_started cfg env false Hs) as (Ht & Hd & Ho).
  rewrite Ht, Hd, Ho, setup_driver_cases, Hc.
  destruct (script_result env) as [[]|e|]; [congruence| |].
  - destruct (is_WebDriverException e) eqn:He; cbn;
      (repeat split;
       [ tauto
       | intuition discriminate
       | intros [p Hp]; intuition discriminate
       | intros e' [= <-]; now rewrite He
       | discriminate ]).
  - cbn. repeat split;
      [ tauto
      | intuition discriminate
      | intros [p Hp]; intuition discriminate
      | discriminate ].
Qed.

Lemma browser_left_open_when_scripts_fail_witness :
  let r := scrape_all_pages (one_page 3) script_failure_env false in
  In EvStartChrome (trace r) /\ driver r = true /\
  ~ In EvQuit (trace r) /\ out r = Ok [].
Proof.
  destruct (@browser_left_open_when_scripts_fail (one_page 3)
              script_failure_env)
    as (Hstart & Hd & Hq & _ & Ho & _).
  - reflexivity.
  - discriminate.
  - exact (conj Hstart (conj Hd (conj Hq (Ho WebDriverException eq_refl)))).
Defined.

Local Open Scope Z_scope.

(** ** C9 *)














(** ** C3 *)




(** ** C1 *)

(** C1 at a page that is never ready, with three retries allowed: the
    readiness check says "not ready", and the run visits the page once,
    with no back-off sleep and no second navigation, then goes on. *)
Theorem never_ready_page_visited_once :
  let env := env_of (fun _ _ => never_ready_page) in
  out (wait_for_content_load never_ready_page 1 true) = Ok false /\
  trace (scrape_all_pages (one_page 3) env false)
  = [EvStartChrome; EvExecuteScript; EvLog LogDriverReady;
     EvLog (LogScraping 1); EvGet 1; EvWaitUntilNot; EvSleep Settle 5;
     EvFindBody; EvLog (LogPlaceholder 1); EvLog (LogNotLoaded 1);
     EvSleep RateLimit 5; EvLog (LogTotal 0); EvQuit;
     EvLog LogDriverClosed] /\
  out (scrape_all_pages (one_page 3) env false) = Ok [].
Proof. repeat split. Qed.

(** * Further properties *)

Local Close Scope Z_scope.

(** ** [clean_patent_title], lines 253-272 *)

Lemma Forall_drop {A} (P : A -> Prop) n (l : list A) :
  Forall P l -> Forall P (skipn n l).
Proof.
  intros H. revert n. induction H; intros [|n]; simpl; try constructor; auto.
Qed.

Lemma split_ws_nil_iff t : split_ws t = [] <-> forallb is_space t = true.
Proof.
  induction t as [|c t IH]; [now split|].
  rewrite split_ws_cons. cbn [forallb].
  destruct (is_space c) eqn:Hc; [exact IH|].
  cbn. split; [|discriminate]. intros H.
  exfalso. apply (split_ws_nonspace_ne c t Hc).
  now rewrite split_ws_cons, Hc.
Qed.

Lemma join_nil_iff ws : Forall word ws -> (join [SP] ws = [] <-> ws = []).
Proof.
  intros H. split; [|now intros ->].
  destruct H as [|w ws Hw _]; [reflexivity|].
  intros E. now apply join_words_ne in E.
Qed.

Lemma join_inj a b :
  Forall word a -> Forall word b -> join [SP] a = join [SP] b -> a = b.
Proof.
  intros Ha Hb E. rewrite <- (split_join Ha), <- (split_join Hb).
  now rewrite E.
Qed.

(** The normalizer seen on the words of the title. *)
Lemma clean_patent_title_words t :
  clean_patent_title t = join [SP] (clean_words (words t)).
Proof.
  rewrite clean_patent_title_unfold.
  unfold clean_words, halves_equal, first_half, second_half,
    collapse_whitespace, words.
  rewrite strip_re_sub_ws.
  now destruct (_ && _).
Qed.

Lemma clean_words_words ws : Forall word ws -> Forall word (clean_words ws).
Proof.
  intros H. unfold clean_words.
  destruct (halves_equal ws); [now apply Forall_take | exact H].
Qed.

Lemma words_join ws : Forall word ws -> words (join [SP] ws) = ws.
Proof. apply split_join. Qed.

(** The two halves are equal only when the number of words is even. *)
Lemma halves_equal_even ws :
  Forall word ws -> halves_equal ws = true ->
  10 < length ws /\ length ws = 2 * (length ws / 2)
  /\ firstn (length ws / 2) ws = skipn (length ws / 2) ws.
Proof.
  intros Hw H. unfold halves_equal in H.
  apply andb_true_iff in H as [Hlen Heq].
  apply Nat.ltb_lt in Hlen. apply str_eqb_eq in Heq.
  rewrite (strip_join (Forall_drop _ Hw)) in Heq.
  apply join_inj in Heq;
    [|now apply Forall_take | now apply Forall_drop].
  split; [exact Hlen|]. split; [|exact Heq].
  pose proof (f_equal (@length _) Heq) as Hl.
  rewrite length_firstn, length_skipn in Hl.
  pose proof (Nat.div_mod_eq (length ws) 2).
  pose proof (Nat.mod_upper_bound (length ws) 2). lia.
Qed.

(** X1. The result of the normalizer is in normal form: stripping it or
    replacing its runs of white space again changes nothing, and its words
    are the first words of the title, all of them or half of them. *)
Theorem clean_patent_title_normal_form (t : str) :
  strip (clean_patent_title t) = clean_patent_title t /\
  re_sub_ws (clean_patent_title t) = clean_patent_title t /\
  (words (clean_patent_title t) = words t \/
   words (clean_patent_title t) = firstn (length (words t) / 2) (words t)).
Proof.
  rewrite clean_patent_title_words.
  pose proof (clean_words_words (split_ws_words t)) as Hw.
  fold (words t) in Hw.
  assert (Hs : strip (join [SP] (clean_words (words t)))
               = join [SP] (clean_words (words t))) by now apply strip_join.
  split; [exact Hs|]. split.
  - rewrite <- Hs at 1. rewrite re_sub_ws_strip. now rewrite split_join.
  - rewrite (words_join Hw). unfold clean_words.
    destruct (halves_equal (words t)); auto.
Qed.

(** X2. The normalizer returns the empty string exactly on the titles made
    of white space only (the empty title among them). *)
Theorem clean_patent_title_empty_iff (t : str) :
  clean_patent_title t = [] <-> forallb is_space t = true.
Proof.
  rewrite clean_patent_title_words, <- split_ws_nil_iff.
  pose proof (split_ws_words t) as Hw. fold (words t) in Hw |- *.
  rewrite (join_nil_iff (clean_words_words Hw)).
  unfold clean_words.
  destruct (halves_equal (words t)) eqn:E; [|tauto].
  destruct (halves_equal_even Hw E) as (Hlen & Heven & _).
  split.
  - intros H. pose proof (f_equal (@length _) H) as Hl.
    rewrite length_firstn in Hl. cbn [length] in Hl. lia.
  - intros H. rewrite H in Hlen. cbn [length] in Hlen. lia.
Qed.

Lemma halves_equal_short ws : length ws <= 10 -> halves_equal ws = false.
Proof.
  intros H. unfold halves_equal.
  destruct (10 <? length ws) eqn:E; [|reflexivity].
  apply Nat.ltb_lt in E. lia.
Qed.

Lemma clean_words_idem ws :
  Forall word ws -> length ws < 24 ->
  clean_words (clean_words ws) = clean_words ws.
Proof.
  intros Hw Hlen.
  destruct (halves_equal ws) eqn:E.
  - assert (Hc : clean_words ws = firstn (length ws / 2) ws)
      by (unfold clean_words; now rewrite E).
    rewrite Hc.
    destruct (halves_equal_even Hw E) as (_ & Heven & _).
    set (h := firstn (length ws / 2) ws).
    assert (Hh : length h = length ws / 2).
    { unfold h. rewrite length_firstn. lia. }
    unfold clean_words.
    destruct (halves_equal h) eqn:E'; [|reflexivity].
    destruct (halves_equal_even (Forall_take _ Hw) E') as (Hl' & Heven' & _).
    fold h in Hl', Heven'. lia.
  - assert (Hc : clean_words ws = ws)
      by (unfold clean_words; now rewrite E).
    now rewrite !Hc.
Qed.

(** X3. Cleaning a cleaned title changes nothing as long as the title has
    fewer than 24 words; a title of 24 words made of four copies of a text
    is halved at each pass. *)
Theorem clean_patent_title_idempotent_below_24 :
  (forall t, length (words t) < 24 ->
     clean_patent_title (clean_patent_title t) = clean_patent_title t) /\
  (length (words fourfold_title) = 24 /\
   clean_patent_title (clean_patent_title fourfold_title)
   <> clean_patent_title fourfold_title).
Proof.
  split.
  - intros t Hlen.
    pose proof (split_ws_words t) as Hw. fold (words t) in Hw.
    rewrite (clean_patent_title_words (clean_patent_title t)).
    rewrite (clean_patent_title_words t) at 1.
    rewrite (words_join (clean_words_words Hw)).
    rewrite (clean_words_idem Hw Hlen).
    now rewrite <- clean_patent_title_words.
  - split; [reflexivity | vm_compute; discriminate].
Qed.

Lemma clean_patent_title_idempotent_below_24_witness :
  clean_patent_title (clean_patent_title messy_title)
  = clean_patent_title messy_title.
Proof.
  refine (proj1 clean_patent_title_idempotent_below_24 messy_title _).
  vm_compute. lia.
Defined.

(** X4. A title whose words are a text written twice comes back as that
    text once, its words joined by single spaces, when the text has more
    than 5 words; when it has at most 5 words the title keeps both copies. *)
Theorem clean_patent_title_doubled (t : str) (ws : list str) :
  words t = ws ++ ws ->
  (5 < length ws -> clean_patent_title t = join [SP] ws) /\
  (length ws <= 5 -> clean_patent_title t = join [SP] (ws ++ ws)).
Proof.
  intros Ht. rewrite clean_patent_title_words, Ht.
  pose proof (split_ws_words t) as Hw. fold (words t) in Hw.
  rewrite Ht in Hw. apply Forall_app in Hw as [Hw _].
  assert (Hhalf : length (ws ++ ws) / 2 = length ws).
  { rewrite length_app. replace (length ws + length ws) with (length ws * 2)
      by lia. now rewrite Nat.div_mul. }
  unfold clean_words, halves_equal. rewrite Hhalf.
  rewrite firstn_app, Nat.sub_diag, firstn_all, firstn_O, app_nil_r.
  rewrite skipn_app, Nat.sub_diag, skipn_all, skipn_O. cbn [app].
  rewrite (strip_join Hw).
  assert (He : str_eqb (join [SP] ws) (join [SP] ws) = true)
    by now apply str_eqb_eq.
  rewrite He, andb_true_r, length_app.
  split; intros H.
  - destruct (10 <? length ws + length ws) eqn:E; [reflexivity|].
    apply Nat.ltb_ge in E. lia.
  - destruct (10 <? length ws + length ws) eqn:E; [|reflexivity].
    apply Nat.ltb_lt in E. lia.
Qed.

Lemma clean_patent_title_doubled_witness :
  clean_patent_title doubled_title = join [SP] (words (py "a b c d e f")).
Proof.
  refine (proj1 (clean_patent_title_doubled doubled_title
                   (words (py "a b c d e f")) _) _).
  - reflexivity.
  - vm_compute. lia.
Defined.

(** ** [extract_patent_from_element], lines 182-251 *)

Lemma rstrip_idem s : rstrip (rstrip s) = rstrip s.
Proof.
  induction s as [|c s IH]; [reflexivity|]. cbn [rstrip].
  destruct (rstrip s) as [|x r] eqn:E.
  - destruct (is_space c) eqn:Hc; [reflexivity|].
    cbn. now rewrite Hc.
  - cbn [rstrip] in IH |- *. now rewrite IH.
Qed.

Lemma lstrip_no_leading s : leading_space s = false -> lstrip s = s.
Proof. destruct s as [|c s]; [reflexivity|]. cbn. now intros ->. Qed.

Lemma rstrip_leading s : leading_space s = false -> leading_space (rstrip s) = false.
Proof.
  intros H. destruct (rstrip s) as [|x r] eqn:E; [reflexivity|].
  destruct (rstrip_head _ E) as [s' ->]. exact H.
Qed.

Lemma strip_leading s : leading_space (strip s) = false.
Proof. apply rstrip_leading, lstrip_leading. Qed.

Lemma strip_idem s : strip (strip s) = strip s.
Proof.
  unfold strip at 1. rewrite (lstrip_no_leading _ (strip_leading s)).
  unfold strip. apply rstrip_idem.
Qed.

(** A stripped text that is not empty is not made of white space. *)
Lemma strip_not_blank s : strip s <> [] -> forallb is_space (strip s) = false.
Proof.
  intros H. pose proof (strip_leading s) as Hl.
  destruct (strip s) as [|c r]; [congruence|]. cbn in Hl |- *. now rewrite Hl.
Qed.

Lemma lstrip_suffix s : exists a, s = a ++ lstrip s.
Proof.
  unfold lstrip. induction s as [|c s [a IH]]; [now exists []|]. cbn.
  destruct (is_space c); [|now exists []].
  exists (c :: a). cbn. now rewrite <- IH.
Qed.

Lemma rstrip_prefix s : exists b, s = rstrip s ++ b.
Proof.
  induction s as [|c s [b IH]]; [now exists []|]. cbn [rstrip].
  destruct (rstrip s) as [|x r] eqn:E.
  - destruct (is_space c); [now exists (c :: s)|].
    exists b. cbn in IH |- *. now rewrite <- IH.
  - exists b. cbn [app] in IH |- *. now rewrite <- IH.
Qed.

(** What is in the stripped text is in the text. *)
Lemma contains_of_strip n t :
  contains n (strip t) = true -> contains n t = true.
Proof.
  rewrite !contains_spec. intros [a [b H]].
  destruct (lstrip_suffix t) as [l Hl].
  destruct (rstrip_prefix (lstrip t)) as [r Hr].
  exists (l ++ a), (b ++ r). rewrite Hl, Hr. unfold strip in H.
  rewrite H, <- !app_assoc. reflexivity.
Qed.

Lemma any_in_of_strip inds t :
  any_in inds t = false -> any_in inds (strip t) = false.
Proof.
  unfold any_in. intros H.
  destruct (existsb (fun ind => contains ind (strip t)) inds) eqn:E;
    [|reflexivity].
  apply existsb_exists in E as [n [Hin Hn]].
  apply contains_of_strip in Hn.
  assert (Ht : existsb (fun ind => contains ind t) inds = true)
    by (apply existsb_exists; now exists n).
  congruence.
Qed.

Lemma clean_stripped t : stripped (clean_patent_title t).
Proof. apply (proj1 (clean_patent_title_normal_form t)). Qed.

Lemma title_from_selector_stripped sel : stripped (title_from_selector sel).
Proof.
  unfold title_from_selector. destruct sel as [t|]; [|reflexivity].
  destruct (_ && _); [apply clean_stripped | reflexivity].
Qed.

Lemma title_from_lines_stripped old lines :
  stripped old -> stripped (title_from_lines old lines).
Proof.
  intros H. induction lines as [|line rest IH]; [exact H|]. cbn.
  destruct (_ && _); [apply clean_stripped | exact IH].
Qed.

Lemma stripped_or_stripped sel : stripped (stripped_or [] sel).
Proof. destruct sel; [apply strip_idem | reflexivity]. Qed.

Lemma url_from_link_shape sel :
  url_from_link sel = [] \/
  exists href, href <> [] /\ url_from_link sel = site_prefix ++ href.
Proof.
  destruct sel as [[href|]|]; cbn; auto.
  destruct href as [|c r]; cbn; auto.
  right. exists (c :: r). split; [discriminate | reflexivity].
Qed.

Lemma extracted_well_formed item p :
  extract_patent_from_element item = Some p -> well_formed p.
Proof.
  unfold extract_patent_from_element.
  destruct (any_in skip_indicators (strip (get_text item))); [discriminate|].
  match goal with |- (if is_valid ?q then _ else _) = _ -> _ =>
    destruct (is_valid q) end; [|discriminate].
  intros [= <-]. unfold well_formed. cbn.
  repeat split; try apply stripped_or_stripped; [|apply url_from_link_shape].
  destruct (_ && _);
    [apply title_from_lines_stripped |]; apply title_from_selector_stripped.
Qed.



(** X6. A container without skip indicator always gives a record when its
    number selector yields a text that is not blank, and the record carries
    that text stripped; and when its title selector yields a text that is
    not blank and holds no skip indicator, the record carries that text
    cleaned. *)
Theorem extract_complete (item : element) :
  any_in skip_indicators (get_text item) = false ->
  (forall n, sel_publication_number item = Some n -> strip n <> [] ->
     exists p, extract_patent_from_element item = Some p
               /\ patent_number p = strip n) /\
  (forall t, sel_result_title item = Some t -> strip t <> [] ->
     any_in skip_indicators (strip t) = false ->
     exists p, extract_patent_from_element item = Some p
               /\ title p = clean_patent_title (strip t)).
Proof.
  intros Hskip. apply any_in_of_strip in Hskip.
  split.
  - intros n Hn Hne. unfold extract_patent_from_element.
    rewrite Hskip, Hn.
    match goal with |- exists p, (if is_valid ?q then _ else _) = _ /\ _ =>
      assert (Hv : is_valid q = true) end.
    { apply is_valid_strip. right. cbn [patent_number stripped_or].
      now rewrite strip_idem. }
    rewrite Hv. eexists. split; reflexivity.
  - intros t Ht Hne Hts. unfold extract_patent_from_element.
    rewrite Hskip, Ht.
    assert (Hc : clean_patent_title (strip t) <> []).
    { intros E. apply clean_patent_title_empty_iff in E.
      rewrite (strip_not_blank _ Hne) in E. discriminate. }
    assert (H1 : title_from_selector (Some t) = clean_patent_title (strip t)).
    { unfold title_from_selector. rewrite Hts.
      destruct (strip t); [congruence | reflexivity]. }
    rewrite H1.
    assert (Htr : truthy (clean_patent_title (strip t)) = true)
      by now apply truthy_ne.
    rewrite Htr. cbn [negb andb].
    match goal with |- exists p, (if is_valid ?q then _ else _) = _ /\ _ =>
      assert (Hv : is_valid q = true) end.
    { apply is_valid_strip. left. cbn [title].
      now rewrite clean_stripped. }
    rewrite Hv. eexists. split; reflexivity.
Qed.

Lemma extract_complete_witness :
  exists p, extract_patent_from_element padded_row = Some p
            /\ patent_number p = strip (py " CA1234567 ").
Proof.
  refine (proj1 (extract_complete padded_row _) (py " CA1234567 ") _ _).
  - reflexivity.
  - reflexivity.
  - vm_compute. discriminate.
Defined.

Lemma title_from_lines_short lines :
  Forall (fun line => length line <= 10) lines ->
  title_from_lines [] lines = [].
Proof.
  induction 1 as [|line rest Hl _ IH]; [reflexivity|].
  cbn [title_from_lines]. apply Nat.ltb_ge in Hl. rewrite Hl, andb_false_r. exact IH.
Qed.

(** X7. A container in which neither the title selector nor the number
    selector matches, and whose text has no line of more than 10
    characters, gives no record, whatever its other selectors yield. *)
Theorem extract_short_text_none (item : element) :
  sel_result_title item = None ->
  sel_publication_number item = None ->
  Forall (fun line => length line <= 10) (text_lines item) ->
  extract_patent_from_element item = None.
Proof.
  intros Ht Hn Hl. unfold extract_patent_from_element.
  destruct (any_in skip_indicators (strip (get_text item))); [reflexivity|].
  rewrite Ht, Hn. cbn [title_from_selector truthy negb andb stripped_or].
  fold (text_lines item). rewrite (title_from_lines_short Hl).
  now destruct (truthy (strip (get_text item))).
Qed.

Lemma extract_short_text_none_witness :
  extract_patent_from_element short_block = None.
Proof.
  refine (extract_short_text_none short_block _ _ _); try reflexivity.
  vm_compute. repeat constructor.
Defined.

Local Open Scope Z_scope.

(** ** [scrape_patent_page], lines 274-328 *)

Lemma navigated_app t1 t2 : navigated (t1 ++ t2) = navigated t1 ++ navigated t2.
Proof. apply flat_map_app. Qed.

Lemma navigated_quiet t : forallb quiet t = true -> navigated t = [].
Proof.
  induction t as [|ev t IH]; [reflexivity|]. cbn [forallb].
  intros H. apply andb_true_iff in H as [Hev Ht].
  unfold navigated in *. cbn [flat_map]. rewrite (IH Ht).
  destruct ev; try discriminate Hev; reflexivity.
Qed.

(** The records of a page scrape come from a parsed page source. *)
Lemma scrape_patent_page_records pe page d l :
  out (scrape_patent_page pe page d) = Ok l ->
  l = [] \/ exists s, page_source pe = Ok s /\ l = page_records s.
Proof.
  revert l.
  page_cases pe
    ltac:(intros l H;
          first [ discriminate H
                | injection H as <-;
                  first [ now left
                        | right; eexists; split; reflexivity ] ]).
Qed.

(** X8. A page scrape navigates exactly once, to its own page.  It parses
    the page source only after a navigation that succeeded and a readiness
    check that found no placeholder; and records come only out of a parsed
    page source. *)
Theorem scrape_patent_page_visits_once (pe : page_env) (page : Z) (d : bool) :
  navigated (trace (scrape_patent_page pe page d)) = [page] /\
  (In EvPageSource (trace (scrape_patent_page pe page d)) ->
   get_result pe = Ok tt /\ wait_timed_out_or_not pe /\
   exists txt, body_text pe = Ok txt
               /\ any_in placeholder_indicators txt = false) /\
  (forall p l, out (scrape_patent_page pe page d) = Ok (p :: l) ->
   exists s, page_source pe = Ok s /\ p :: l = page_records s).
Proof.
  split; [|split].
  - destruct (scrape_patent_page_shape pe page d) as ([rest [Ht Hq]] & _ & _).
    rewrite Ht. unfold navigated. cbn [flat_map app].
    fold (navigated rest). now rewrite (navigated_quiet _ Hq).
  - unfold wait_timed_out_or_not.
    page_cases pe
      ltac:(cbn; intros H;
            first [ exfalso; intuition discriminate
                  | split; [reflexivity|]; split; [auto|]; eauto ]).
  - intros p l H.
    destruct (scrape_patent_page_records pe page d H) as [E | E];
      [discriminate E | exact E].
Qed.

Lemma scrape_patent_page_visits_once_witness :
  exists s, page_source ready_page = Ok s
            /\ [widget_record] = page_records s.
Proof.
  refine (proj2 (proj2 (scrape_patent_page_visits_once ready_page 1 true))
            widget_record [] _).
  reflexivity.
Defined.

(** ** [scrape_all_pages], lines 342-374 *)


Lemma pages_out_ok cfg env ps : forall acc l,
  pages_out cfg env true ps acc = Ok l ->
  (forall p, In p ps -> out (attempt cfg env p true) <> Interrupted)
  /\ (ps <> [] -> 0 <= rate_limit_delay cfg <= sleep_max).
Proof.
  induction ps as [|page rest IH]; intros acc l H.
  - split; [intros p [] | congruence].
  - cbn [pages_out] in H.
    destruct (out (attempt cfg env page true)) as [l'|e|] eqn:Ho;
      try discriminate H.
    destruct (sleep_refused (rate_limit_delay cfg)) eqn:Hd; [discriminate H|].
    apply sleep_refused_false in Hd. destruct (IH _ _ H) as [Hu _].
    split; [|intros _; exact Hd].
    intros p [<- | Hp]; [rewrite Ho; discriminate | now apply Hu].
Qed.



(** X10. A run whose browser started returns a list only if [quit]
    succeeded, no page of the range was interrupted and, when the range is
    not empty, the delay is one that [time.sleep] takes, neither negative
    nor above [sleep_max]: otherwise the records collected so far are lost
    with the exception. *)
Theorem run_returns_only_if_complete (cfg : PatentScraperConfig)
    (env : run_env) (l : list PatentData) :
  out (setup_driver env false) = Ok true ->
  out (scrape_all_pages cfg env false) = Ok l ->
  (exists u, quit_result env = Ok u) /\ uninterrupted cfg env
  /\ (page_range cfg <> [] -> 0 <= rate_limit_delay cfg <= sleep_max).
Proof.
  intros Hs H.
  destruct (@scrape_all_pages_started cfg env false Hs) as (_ & _ & Ho).
  rewrite Ho in H.
  destruct (quit_result env) as [u|e|]; try discriminate H.
  split; [now exists u|]. now apply pages_out_ok in H.
Qed.

Lemma run_returns_only_if_complete_witness :
  (exists u, quit_result (env_of (fun _ _ => ready_page)) = Ok u)
  /\ uninterrupted two_pages (env_of (fun _ _ => ready_page))
  /\ (page_range two_pages <> [] -> 0 <= rate_limit_delay two_pages <= sleep_max).
Proof.
  refine (@run_returns_only_if_complete two_pages
            (env_of (fun _ _ => ready_page)) [widget_record; widget_record]
            _ _); reflexivity.
Defined.

Lemma navigated_attempt cfg env p d :
  navigated (trace (attempt cfg env p d))
  = if 0 <? max_retries cfg then [p] else [].
Proof.
  unfold attempt. destruct (0 <? max_retries cfg); [|reflexivity].
  apply (proj1 (scrape_patent_page_visits_once (pages env p 0%nat) p d)).
Qed.

Lemma navigated_pages_trace cfg env d ps :
  exists k, navigated (pages_trace cfg env d ps)
            = firstn k (if 0 <? max_retries cfg then ps else []).
Proof.
  induction ps as [|page rest [k IH]].
  - exists 0%nat. now destruct (0 <? max_retries cfg).
  - cbn [pages_trace]. rewrite navigated_app, navigated_attempt.
    destruct (0 <? max_retries cfg).
    + destruct (out (attempt cfg env page d));
        [|exists 1%nat; reflexivity..].
      destruct (sleep_refused (rate_limit_delay cfg)); [exists 1%nat; reflexivity|].
      exists (S k). unfold navigated in *. cbn. now rewrite IH.
    + exists 0%nat. rewrite firstn_nil in IH.
      destruct (out (attempt cfg env page d)); try reflexivity.
      destruct (sleep_refused (rate_limit_delay cfg)); [reflexivity|].
      unfold navigated in *. cbn. exact IH.
Qed.

Lemma navigated_run cfg env d :
  navigated (trace (scrape_all_pages cfg env d)) = []
  \/ navigated (trace (scrape_all_pages cfg env d))
     = navigated (pages_trace cfg env true (page_range cfg)).
Proof.
  destruct (outcome_eq_dec_true (out (setup_driver env d))) as [Hs | Hs].
  - right. destruct (@scrape_all_pages_started cfg env d Hs) as (Ht & _ & _).
    rewrite Ht, !navigated_app. cbn [navigated setup_ok_trace flat_map app].
    unfold total_log, closing.
    destruct (pages_out _ _ _ _ _), (quit_result env);
      cbn; now rewrite app_nil_r.
  - left. destruct (@scrape_all_pages_not_started cfg env d Hs) as (Ht & _ & _).
    rewrite Ht, setup_driver_cases.
    destruct (chrome_result env) as [[]|[]|],
             (script_result env) as [[]|[]|]; reflexivity.
Qed.






Lemma pages_out_no_try cfg env ps : forall acc l,
  max_retries cfg <= 0 -> pages_out cfg env true ps acc = Ok l -> l = acc.
Proof.
  induction ps as [|page rest IH]; intros acc l Hm; cbn [pages_out].
  - now intros [= <-].
  - unfold attempt. apply Z.ltb_ge in Hm as Hm'. rewrite Hm'. cbn.
    destruct (sleep_refused (rate_limit_delay cfg)); [discriminate|].
    intros H. apply IH in H; [|exact Hm]. now rewrite app_nil_r in H.
Qed.

(** X12. With [max_retries] at 0 or below, a run navigates to no page at
    all and, when it returns, returns no record, whatever the site holds. *)
Theorem no_retries_no_visit (cfg : PatentScraperConfig) (env : run_env) :
  max_retries cfg <= 0 ->
  navigated (trace (scrape_all_pages cfg env false)) = [] /\
  (forall l, out (scrape_all_pages cfg env false) = Ok l -> l = []).
Proof.
  intros Hm. split.
  - destruct (navigated_run cfg env false) as [-> | ->]; [reflexivity|].
    destruct (navigated_pages_trace cfg env true (page_range cfg)) as [k Hk].
    apply Z.ltb_ge in Hm. rewrite Hm in Hk. now rewrite Hk, firstn_nil.
  - intros l H.
    destruct (outcome_eq_dec_true (out (setup_driver env false))) as [Hs | Hs].
    + destruct (@scrape_all_pages_started cfg env false Hs) as (_ & _ & Ho).
      rewrite Ho in H. destruct (quit_result env); try discriminate H.
      now apply pages_out_no_try in H.
    + destruct (@scrape_all_pages_not_started cfg env false Hs)
        as (_ & _ & Ho).
      rewrite Ho in H. destruct (out (setup_driver env false));
        try discriminate H. now injection H as <-.
Qed.

Lemma no_retries_no_visit_witness :
  navigated (trace (scrape_all_pages (one_page 0)
                      (env_of (fun _ _ => ready_page)) false)) = [].
Proof.
  refine (proj1 (@no_retries_no_visit (one_page 0)
                   (env_of (fun _ _ => ready_page)) _)).
  vm_compute. discriminate.
Defined.

Lemma page_range_empty cfg : end_page cfg < start_page cfg -> page_range cfg = [].
Proof.
  intros H. unfold page_range.
  replace (Z.to_nat (end_page cfg + 1 - start_page cfg)) with 0%nat by lia.
  reflexivity.
Qed.

(** X13. When [end_page] is below [start_page] the run starts the browser,
    visits no page, does not sleep, logs a total of 0, closes the browser
    and returns the empty list. *)
Theorem empty_range_run (cfg : PatentScraperConfig) (env : run_env) :
  end_page cfg < start_page cfg ->
  out (setup_driver env false) = Ok true ->
  trace (scrape_all_pages cfg env false)
  = setup_ok_trace ++ EvLog (LogTotal 0) :: closing env /\
  (quit_result env = Ok tt -> out (scrape_all_pages cfg env false) = Ok []).
Proof.
  intros Hr Hs.
  destruct (@scrape_all_pages_started cfg env false Hs) as (Ht & _ & Ho).
  rewrite Ht, Ho, (page_range_empty cfg Hr). cbn [pages_trace pages_out].
  split; [reflexivity | now intros ->].
Qed.

Lemma empty_range_run_witness :
  trace (scrape_all_pages empty_range (env_of (fun _ _ => ready_page)) false)
  = setup_ok_trace
    ++ EvLog (LogTotal 0) :: closing (env_of (fun _ _ => ready_page)).
Proof.
  refine (proj1 (@empty_range_run empty_range
                   (env_of (fun _ _ => ready_page)) _ _)); reflexivity.
Defined.

(** ** [setup_driver], lines 112-151 *)

(** X14. [setup_driver] returns [True] exactly when Chrome starts and the
    scripts run; it returns [False] exactly when the first call that fails
    raises a [WebDriverException]; every other failure leaves it as an
    exception.  The [driver] attribute of a fresh scraper is set exactly
    when Chrome started, also when the scripts failed afterwards. *)
Theorem setup_driver_outcomes (env : run_env) :
  (out (setup_driver env false) = Ok true <->
   (exists u, chrome_result env = Ok u)
   /\ (exists u, script_result env = Ok u)) /\
  (out (setup_driver env false) = Ok false <->
   exists e, is_WebDriverException e = true /\
     (chrome_result env = Raise e \/
      ((exists u, chrome_result env = Ok u) /\ script_result env = Raise e)))
  /\
  (driver (setup_driver env false) = true <->
   exists u, chrome_result env = Ok u).
Proof.
  rewrite setup_driver_cases.
  destruct (chrome_result env) as [[]|[]|],
           (script_result env) as [[]|[]|]; cbn;
    (split; [|split]); split; intros H;
    repeat match goal with
           | H : exists _, _ |- _ => destruct H
           | H : _ /\ _ |- _ => destruct H
           | H : _ \/ _ |- _ => destruct H
           | H : Raise _ = Raise _ |- _ => injection H as <-
           end;
    try discriminate; try reflexivity;
    first [ solve [eauto]
          | solve [eexists; split; [|left; reflexivity]; reflexivity]
          | solve [eexists; split;
                   [|right; split; [eexists; reflexivity | reflexivity]];
                   reflexivity] ].
Qed.

(** ** [main], lines 376-424 *)

Lemma main_save_results cfg env :
  main cfg env
  = (call EvMkdir (mkdir_result env) ;;;
     all_patents <- scrape_all_pages cfg env ;;
     save_results env all_patents).
Proof. reflexivity. Qed.

Lemma file_writes_app a b : file_writes (a ++ b) = (file_writes a + file_writes b)%nat.
Proof. unfold file_writes. now rewrite filter_app, length_app. Qed.

Lemma loop_event_run_event cfg ev :
  loop_event cfg ev = true -> run_event cfg ev = true.
Proof. unfold run_event. now intros ->. Qed.

(** The events of a run are those of its four parts. *)
Lemma scrape_all_pages_run_events cfg env d :
  forallb (run_event cfg) (trace (scrape_all_pages cfg env d)) = true.
Proof.
  destruct (outcome_eq_dec_true (out (setup_driver env d))) as [Hs | Hs].
  - destruct (@scrape_all_pages_started cfg env d Hs) as (Ht & _ & _).
    rewrite Ht, !forallb_app.
    rewrite (forallb_impl _ _ _ (loop_event_run_event cfg)
               (pages_trace_loop_events cfg env true (page_range cfg))).
    unfold total_log, closing.
    destruct (pages_out _ _ _ _ _), (quit_result env); reflexivity.
  - destruct (@scrape_all_pages_not_started cfg env d Hs) as (Ht & _ & _).
    rewrite Ht, setup_driver_cases.
    destruct (chrome_result env) as [[]|[]|],
             (script_result env) as [[]|[]|]; reflexivity.
Qed.

Lemma file_writes_run_events cfg t :
  forallb (run_event cfg) t = true -> file_writes t = 0%nat.
Proof.
  induction t as [|ev t IH]; [reflexivity|]. cbn [forallb].
  intros H. apply andb_true_iff in H as [Hev Ht].
  unfold file_writes in *. cbn [filter].
  destruct ev; try (now apply IH). discriminate Hev.
Qed.

Lemma save_results_writes env all d :
  file_writes (trace (save_results env all d))
  = match all with
    | [] => 0
    | _ :: _ =>
        match write_result env 0 with
        | Ok _ => match write_result env 1 with
                  | Ok _ => 3
                  | _ => 2
                  end
        | _ => 1
        end
    end%nat.
Proof.
  destruct all as [|p l]; [reflexivity|].
  unfold save_results. cbv [bind call log trace out driver].
  destruct (write_result env 0); [|reflexivity..].
  destruct (write_result env 1); [|reflexivity..].
  destruct (write_result env 2); reflexivity.
Qed.

Lemma save_results_out env all d :
  out (save_results env all d)
  = match all with
    | [] => Ok tt
    | _ :: _ =>
        match write_result env 0 with
        | Ok _ => match write_result env 1 with
                  | Ok _ => match write_result env 2 with
                            | Ok _ => Ok tt
                            | Raise e => Raise e
                            | Interrupted => Interrupted
                            end
                  | Raise e => Raise e
                  | Interrupted => Interrupted
                  end
        | Raise e => Raise e
        | Interrupted => Interrupted
        end
    end.
Proof.
  destruct all as [|p l]; [reflexivity|].
  unfold save_results. cbv [bind call log trace out driver].
  destruct (write_result env 0); [|reflexivity..].
  destruct (write_result env 1); [|reflexivity..].
  destruct (write_result env 2); reflexivity.
Qed.

Lemma main_file_writes cfg env :
  file_writes (trace (main cfg env false))
  = match mkdir_result env with
    | Ok _ =>
        match out (scrape_all_pages cfg env false) with
        | Ok all =>
            file_writes (trace (save_results env all
                                  (driver (scrape_all_pages cfg env false))))
        | _ => 0%nat
        end
    | _ => 0%nat
    end.
Proof.
  rewrite main_save_results, trace_bind. cbn [call trace out driver].
  rewrite file_writes_app. cbn [file_writes filter length Nat.add].
  destruct (mkdir_result env); [|reflexivity..].
  rewrite trace_bind, file_writes_app.
  rewrite (file_writes_run_events cfg _
             (scrape_all_pages_run_events cfg env false)).
  now destruct (out (scrape_all_pages cfg env false)).
Qed.

Lemma main_out cfg env :
  out (main cfg env false)
  = match mkdir_result env with
    | Ok _ =>
        match out (scrape_all_pages cfg env false) with
        | Ok all =>
            out (save_results env all
                   (driver (scrape_all_pages cfg env false)))
        | Raise e => Raise e
        | Interrupted => Interrupted
        end
    | Raise e => Raise e
    | Interrupted => Interrupted
    end.
Proof.
  rewrite main_save_results, out_bind. cbn [call trace out driver].
  destruct (mkdir_result env); [|reflexivity..].
  now rewrite out_bind.
Qed.

(** ** C3 *)





(** X15. [main] writes at most three files, and writes one only when the
    run returned at least one record.  With records and files that can be
    written it writes exactly three and returns; when the first file
    cannot be written the exception leaves [main] and no other file is
    tried. *)
Theorem main_writes_files (cfg : PatentScraperConfig) (env : run_env) :
  (file_writes (trace (main cfg env false)) <= 3)%nat /\
  ((0 < file_writes (trace (main cfg env false)))%nat ->
   exists p l, out (scrape_all_pages cfg env false) = Ok (p :: l)) /\
  (forall p l,
     mkdir_result env = Ok tt ->
     out (scrape_all_pages cfg env false) = Ok (p :: l) ->
     (forall n, write_result env n = Ok tt) ->
     file_writes (trace (main cfg env false)) = 3%nat
     /\ out (main cfg env false) = Ok tt) /\
  (forall p l e,
     mkdir_result env = Ok tt ->
     out (scrape_all_pages cfg env false) = Ok (p :: l) ->
     write_result env 0 = Raise e ->
     file_writes (trace (main cfg env false)) = 1%nat
     /\ out (main cfg env false) = Raise e).
Proof.
  rewrite main_file_writes, main_out.
  split; [|split; [|split]].
  - destruct (mkdir_result env); try lia.
    destruct (out (scrape_all_pages cfg env false)) as [all|e|]; try lia.
    rewrite save_results_writes.
    destruct all; [lia|].
    destruct (write_result env 0); try lia.
    destruct (write_result env 1); lia.
  - destruct (mkdir_result env); try lia.
    destruct (out (scrape_all_pages cfg env false)) as [[|p l]|e|];
      rewrite ?save_results_writes; try lia.
    intros _. now exists p, l.
  - intros p l Hm Ho Hw.
    rewrite Hm, Ho, save_results_writes, save_results_out, !Hw. auto.
  - intros p l e Hm Ho Hw.
    rewrite Hm, Ho, save_results_writes, save_results_out, Hw. auto.
Qed.

Lemma main_writes_files_witness :
  (file_writes (trace (main (one_page 3)
                         (env_of (fun _ _ => ready_page)) false)) = 3%nat
   /\ out (main (one_page 3) (env_of (fun _ _ => ready_page)) false) = Ok tt)
  /\
  (file_writes (trace (main (one_page 3) read_only_env false)) = 1%nat
   /\ out (main (one_page 3) read_only_env false) = Raise OtherException).
Proof.
  split.
  - refine (proj1 (proj2 (proj2 (main_writes_files (one_page 3)
                                   (env_of (fun _ _ => ready_page)))))
              widget_record [] _ _ _); reflexivity.
  - refine (proj2 (proj2 (proj2 (main_writes_files (one_page 3)
                                   read_only_env)))
              widget_record [] OtherException _ _ _); reflexivity.
Defined.

Lemma filter_length_le {A} (f : A -> bool) l :
  (length (filter f l) <= length l)%nat.
Proof.
  induction l as [|a l IH]; [reflexivity|]. cbn.
  destruct (f a); cbn; lia.
Qed.

Lemma set_add_length s x : (length (set_add s x) <= S (length s))%nat.
Proof.
  unfold set_add. destruct (existsb _ s); [lia|].
  rewrite length_app. cbn. lia.
Qed.

Lemma fold_set_add_length xs : forall s,
  (length (fold_left set_add xs s) <= length s + length xs)%nat.
Proof.
  induction xs as [|x xs IH]; intros s; cbn; [lia|].
  specialize (IH (set_add s x)). pose proof (set_add_length s x). lia.
Qed.

Lemma valid_titles_or_numbers l :
  all_valid l ->
  (length l <= length (filter (fun p => truthy (title p)) l)
               + length (filter (fun p => truthy (patent_number p)) l))%nat.
Proof.
  induction 1 as [|p l Hp _ IH]; [reflexivity|]. cbn [filter length].
  apply is_valid_nonempty in Hp.
  destruct (title p), (patent_number p); cbn; try lia.
  destruct Hp; congruence.
Qed.

(** X16. In the summary of the records that a run returned, every record
    is counted among those with a title or those with a number, and none
    of the three counts (titles, numbers, distinct organizations) exceeds
    the total. *)
Theorem summary_counts (cfg : PatentScraperConfig) (env : run_env)
    (l : list PatentData) :
  out (scrape_all_pages cfg env false) = Ok l ->
  let s := summary cfg l in
  (Summary.total_patents s
   <= Summary.patents_with_titles s + Summary.patents_with_numbers s)%nat
  /\ (Summary.patents_with_titles s <= Summary.total_patents s)%nat
  /\ (Summary.patents_with_numbers s <= Summary.total_patents s)%nat
  /\ (Summary.unique_organizations s <= Summary.total_patents s)%nat.
Proof.
  intros H. apply scrape_all_pages_valid in H. cbn.
  split; [now apply valid_titles_or_numbers|].
  split; [apply filter_length_le|]. split; [apply filter_length_le|].
  unfold set_of.
  pose proof (fold_set_add_length
                (map organization
                     (filter (fun p => truthy (organization p)) l)) []) as Hs.
  rewrite length_map in Hs. cbn [length Nat.add] in Hs.
  pose proof (filter_length_le (fun p => truthy (organization p)) l). lia.
Qed.

Lemma summary_counts_witness :
  let s := summary (one_page 3) [widget_record] in
  (Summary.total_patents s
   <= Summary.patents_with_titles s + Summary.patents_with_numbers s)%nat
  /\ (Summary.patents_with_titles s <= Summary.total_patents s)%nat
  /\ (Summary.patents_with_numbers s <= Summary.total_patents s)%nat
  /\ (Summary.unique_organizations s <= Summary.total_patents s)%nat.
Proof.
  refine (@summary_counts (one_page 3) (env_of (fun _ _ => ready_page))
            [widget_record] _).
  reflexivity.
Defined.

(** ** [PatentScraperConfig.__init__], lines 63-89 *)

Lemma json_get_missing s key default :
  items_get s key = None -> json_get (JObject s) key default = Ok default.
Proof. intros H. cbn. now rewrite H. Qed.

Lemma load_config_object items s :
  items_get items (py "scraper") = Some (JObject s) ->
  load_config (Loaded (JObject items))
  = Ok {| ConfigFile.base_url :=
            match items_get s (py "base_url") with
            | Some v => v | None => JString default_base_url end;
          ConfigFile.start_page :=
            match items_get s (py "start_page") with
            | Some v => v | None => JInt 1 end;
          ConfigFile.end_page :=
            match items_get s (py "end_page") with
            | Some v => v | None => JInt 20 end;
          ConfigFile.timeout :=
            match items_get s (py "timeout") with
            | Some v => v | None => JInt 30 end;
          ConfigFile.rate_limit_delay :=
            match items_get s (py "rate_limit_delay") with
            | Some v => v | None => JInt 5 end;
          ConfigFile.max_retries :=
            match items_get s (py "max_retries") with
            | Some v => v | None => JInt 3 end |}.
Proof. intros H. unfold load_config. cbn [json_get]. now rewrite H. Qed.

(** X17. The loader gives the default configuration (pages 1 to 20,
    timeout 30, delay 5, 3 retries) when the file is missing, when it is
    not valid JSON, when it is an object without ['scraper'] entry, and
    when the ['scraper'] object holds none of the six keys; and a
    ['scraper'] object that gives [max_retries] only changes that
    setting only. *)
Theorem load_config_defaults :
  load_config FileNotFound = Ok default_loaded /\
  load_config InvalidJSON = Ok default_loaded /\
  config_of default_loaded = Some default_config /\
  (forall items,
     items_get items (py "scraper") = None ->
     load_config (Loaded (JObject items)) = Ok default_loaded) /\
  (forall items s,
     items_get items (py "scraper") = Some (JObject s) ->
     (forall k, In k config_keys -> items_get s k = None) ->
     load_config (Loaded (JObject items)) = Ok default_loaded) /\
  (forall items s m,
     items_get items (py "scraper") = Some (JObject s) ->
     (forall k, In k config_keys -> k <> py "max_retries" ->
                items_get s k = None) ->
     items_get s (py "max_retries") = Some (JInt m) ->
     exists c, load_config (Loaded (JObject items)) = Ok c /\
               config_of c = Some {| start_page := 1; end_page := 20;
                                     timeout := 30; rate_limit_delay := 5;
                                     max_retries := m |}).
Proof.
  split; [reflexivity|]. split; [reflexivity|]. split; [reflexivity|].
  split; [|split].
  - intros items H. unfold load_config. cbn [json_get]. now rewrite H.
  - intros items s H Hk. rewrite (load_config_object _ H).
    rewrite !Hk; [reflexivity|..]; cbn; tauto.
  - intros items s m H Hk Hm. rewrite (load_config_object _ H).
    eexists. split; [reflexivity|]. rewrite Hm.
    rewrite !Hk; [reflexivity|..]; try (cbn; tauto);
      intros E; apply (f_equal (@length _)) in E; discriminate E.
Qed.

Lemma load_config_defaults_witness :
  exists c, load_config retries_only_file = Ok c /\
            config_of c = Some {| start_page := 1; end_page := 20;
                                  timeout := 30; rate_limit_delay := 5;
                                  max_retries := 7 |}.
Proof.
  refine (proj2 (proj2 (proj2 (proj2 (proj2 load_config_defaults))))
            _ (JCons (py "max_retries") (JInt 7) JNil) 7 _ _ _).
  - reflexivity.
  - intros k Hk Hne. cbn in Hk.
    destruct Hk as [<- | [<- | [<- | [<- | [<- | [<- | []]]]]]];
      try reflexivity. now destruct Hne.
  - reflexivity.
Defined.

Lemma config_shape_dec j : config_shape_ok j \/ ~ config_shape_ok j.
Proof.
  destruct j as [n|s|items|]; try (right; intros []).
  unfold config_shape_ok, scraper_entry_usable.
  destruct (items_get items (py "scraper")) as [[n|s|s|]|]; tauto.
Qed.

Lemma load_config_loaded j :
  (config_shape_ok j -> exists c, load_config (Loaded j) = Ok c) /\
  (~ config_shape_ok j -> load_config (Loaded j) = Raise OtherException).
Proof.
  destruct j as [n|s|items|];
    try (split; [intros [] | reflexivity]).
  unfold config_shape_ok, scraper_entry_usable.
  destruct (items_get items (py "scraper")) as [[n|s|s|]|] eqn:E.
  1,2,4: split; [intros [] | intros _; unfold load_config;
                              cbn [json_get]; now rewrite E].
  - split; [|tauto]. intros _. rewrite (load_config_object _ E). eauto.
  - split; [|tauto]. intros _. exists default_loaded.
    unfold load_config. cbn [json_get]. now rewrite E.
Qed.

(** X18. The loader fails only in three ways: reading the file raised
    something other than the two exceptions it catches, the file does not
    hold a JSON object, or the ['scraper'] entry is there and is not an
    object; the last two end in the [AttributeError] of [get].  In every
    other case it returns a configuration, whatever the types of the
    values. *)
Theorem load_config_failures (f : config_file) :
  (forall e, load_config f = Raise e <->
     f = Unreadable e \/
     (e = OtherException /\ exists j, f = Loaded j /\ ~ config_shape_ok j))
  /\ load_config f <> Interrupted.
Proof.
  destruct f as [| |e'|j].
  - split; [|discriminate]. intros e. split; [discriminate|].
    intros [H | [_ [j [H _]]]]; discriminate H.
  - split; [|discriminate]. intros e. split; [discriminate|].
    intros [H | [_ [j [H _]]]]; discriminate H.
  - split; [|discriminate]. intros e. cbn. split.
    + intros [= ->]. now left.
    + intros [[= ->] | [_ [j [H _]]]]; [reflexivity | discriminate H].
  - destruct (load_config_loaded j) as [Hok Hbad].
    destruct (config_shape_dec j) as [Hj | Hj].
    + destruct (Hok Hj) as [c Hc]. rewrite Hc.
      split; [|discriminate]. intros e. split; [discriminate|].
      intros [H | [_ [j' [[= <-] Hj']]]]; [discriminate H | tauto].
    + rewrite (Hbad Hj). split; [|discriminate]. intros e. split.
      * intros [= <-]. right. split; [reflexivity|]. now exists j.
      * intros [H | [-> _]]; [discriminate H | reflexivity].
Qed.

Lemma load_config_failures_witness :
  load_config (Loaded scraper_number_file) = Raise OtherException.
Proof.
  refine (proj2 (proj1 (load_config_failures (Loaded scraper_number_file))
                   OtherException) _).
  right. split; [reflexivity|]. eexists. split; [reflexivity|].
  intros H. exact H.
Defined.

(** ** [PatentData.to_dict], lines 52-54 *)

Lemma str_eqb_refl s : str_eqb s s = true.
Proof. now apply str_eqb_eq. Qed.

Lemma str_eqb_neq a b : a <> b -> str_eqb a b = false.
Proof.
  intros H. destruct (str_eqb a b) eqn:E; [|reflexivity].
  apply str_eqb_eq in E. contradiction.
Qed.

(** X19. The dictionary of a record has the eight field names as keys, in
    the order of the declaration and without repetition; looking a field
    name up gives back the field, any other key gives the default; and two
    records with the same dictionary are the same record. *)
Theorem to_dict_lookup (p : PatentData) :
  map fst (to_dict p) = field_names /\ NoDup field_names /\
  (forall d,
     dict_get (to_dict p) (py "title") d = title p /\
     dict_get (to_dict p) (py "patent_number") d = patent_number p /\
     dict_get (to_dict p) (py "organization") d = organization p /\
     dict_get (to_dict p) (py "patent_type") d = patent_type p /\
     dict_get (to_dict p) (py "year") d = year p /\
     dict_get (to_dict p) (py "date_added") d = date_added p /\
     dict_get (to_dict p) (py "url") d = url p /\
     dict_get (to_dict p) (py "description") d = description p) /\
  (forall k d, ~ In k field_names -> dict_get (to_dict p) k d = d) /\
  (forall q, to_dict p = to_dict q -> p = q).
Proof.
  split; [reflexivity|]. split.
  { repeat constructor; cbn; intuition discriminate. }
  split; [intros d; repeat split; reflexivity|]. split.
  - intros k d Hk. unfold to_dict. cbn [dict_get].
    rewrite !str_eqb_neq; [reflexivity|..];
      intros E; apply Hk; rewrite <- E; cbn; tauto.
  - intros q H. destruct p, q. cbn in H. now injection H as -> -> -> -> -> -> -> ->.
Qed.

Lemma to_dict_lookup_witness :
  dict_get (to_dict widget_record) (py "inventor") (py "n/a") = py "n/a".
Proof.
  refine (proj1 (proj2 (proj2 (proj2 (to_dict_lookup widget_record))))
            (py "inventor") (py "n/a") _).
  cbn. intuition discriminate.
Defined.

(** ** [analyze_patents] of [analyze_patents.py], lines 26-43 *)

Lemma counter_incr_total c x :
  counter_total (counter_incr c x) = S (counter_total c).
Proof.
  induction c as [|[k n] rest IH]; [reflexivity|]. cbn [counter_incr].
  unfold counter_total in *.
  destruct (str_eqb k x); cbn [fold_right snd]; [reflexivity | rewrite IH; lia].
Qed.

Lemma counter_incr_keys c x :
  map fst (counter_incr c x) = set_add (map fst c) x.
Proof.
  unfold set_add. induction c as [|[k n] rest IH]; [reflexivity|].
  cbn [counter_incr map fst existsb].
  destruct (str_eqb k x); [reflexivity|]. cbn [orb map fst].
  rewrite IH. now destruct (existsb _ (map fst rest)).
Qed.

Lemma fold_counter_total xs : forall c,
  counter_total (fold_left counter_incr xs c)
  = (counter_total c + length xs)%nat.
Proof.
  induction xs as [|x xs IH]; intros c; cbn [fold_left length]; [lia|].
  rewrite IH, counter_incr_total. lia.
Qed.

Lemma fold_counter_keys xs : forall c,
  map fst (fold_left counter_incr xs c) = fold_left set_add xs (map fst c).
Proof.
  induction xs as [|x xs IH]; intros c; [reflexivity|].
  cbn [fold_left]. now rewrite IH, counter_incr_keys.
Qed.

Lemma Counter_total xs : counter_total (Counter xs) = length xs.
Proof. unfold Counter. now rewrite fold_counter_total. Qed.

Lemma Counter_keys xs : map fst (Counter xs) = set_of xs.
Proof. unfold Counter, set_of. now rewrite fold_counter_keys. Qed.

Lemma counter_incr_positive c x :
  Forall (fun kn => (0 < snd kn)%nat) c ->
  Forall (fun kn => (0 < snd kn)%nat) (counter_incr c x).
Proof.
  induction 1 as [|[k n] rest Hk Hr IH]; cbn [counter_incr].
  - repeat constructor.
  - destruct (str_eqb k x); constructor; cbn [snd] in *; try lia; assumption.
Qed.

Lemma Counter_positive xs : Forall (fun kn => (0 < snd kn)%nat) (Counter xs).
Proof.
  unfold Counter. generalize (@Forall_nil _ (fun kn : str * nat => (0 < snd kn)%nat)).
  generalize (@nil (str * nat)).
  induction xs as [|x xs IH]; intros c Hc; [exact Hc|].
  cbn [fold_left]. apply IH. now apply counter_incr_positive.
Qed.

Lemma field_values_length key patents :
  length (field_values key patents)
  = length (filter (has_field key) patents).
Proof. unfold field_values. apply length_map. Qed.

(** X20. The analysis of an empty list is the empty dictionary.  For any
    other list of dictionaries the total is the length of the list, none of
    the four field counts exceeds it, the counts of the year distribution
    add up to the number of patents with a year, those of the organization
    distribution to the number of patents with an organization, the
    organization distribution has one entry for each distinct organization,
    and every count of a distribution is positive. *)
Theorem analyze_patents_counts (patents : list dict) :
  analyze_patents [] = None /\
  (patents <> [] ->
   exists a, analyze_patents patents = Some a /\
     Analysis.total_patents a = length patents /\
     (Analysis.patents_with_titles a <= length patents)%nat /\
     (Analysis.patents_with_numbers a <= length patents)%nat /\
     (Analysis.patents_with_organizations a <= length patents)%nat /\
     (Analysis.patents_with_years a <= length patents)%nat /\
     counter_total (Analysis.year_distribution a)
     = Analysis.patents_with_years a /\
     counter_total (Analysis.organization_distribution a)
     = Analysis.patents_with_organizations a /\
     length (Analysis.organization_distribution a)
     = Analysis.unique_organizations a /\
     Forall (fun kn => (0 < snd kn)%nat) (Analysis.year_distribution a) /\
     Forall (fun kn => (0 < snd kn)%nat)
            (Analysis.organization_distribution a) /\
     Forall (fun kn => (0 < snd kn)%nat)
            (Analysis.patent_type_distribution a)).
Proof.
  split; [reflexivity|]. intros Hne.
  destruct patents as [|p ps]; [congruence|].
  eexists. split; [reflexivity|]. cbn [Analysis.total_patents
    Analysis.patents_with_titles Analysis.patents_with_numbers
    Analysis.patents_with_organizations Analysis.patents_with_years
    Analysis.unique_organizations Analysis.year_distribution
    Analysis.organization_distribution Analysis.patent_type_distribution].
  repeat split; try apply filter_length_le; try apply Counter_positive.
  - now rewrite Counter_total, field_values_length.
  - now rewrite Counter_total, field_values_length.
  - now rewrite <- (length_map fst), Counter_keys.
Qed.

Lemma analyze_patents_counts_witness :
  exists a, analyze_patents [to_dict acme_record; foreign_dict] = Some a /\
     Analysis.total_patents a = 2%nat.
Proof.
  destruct (proj2 (analyze_patents_counts [to_dict acme_record; foreign_dict]))
    as [a [Ha [Ht _]]]; [discriminate|].
  exists a. split; [exact Ha | exact Ht].
Defined.

(** ** From one container to a whole run *)

Section Lifting.

Variable P : PatentData -> Prop.
Hypothesis extract_P :
  forall item p, extract_patent_from_element item = Some p -> P p.

Lemma row_records_Forall row : Forall P (row_records row).
Proof.
  unfold row_records. destruct (sel_result_title row); [|constructor].
  destruct (extract_patent_from_element row) eqn:E; cbn; constructor;
    [now apply (extract_P row) | constructor].
Qed.

Lemma div_records_Forall div : Forall P (div_records div).
Proof.
  unfold div_records. destruct (_ && _); [|constructor].
  destruct (extract_patent_from_element div) eqn:E; cbn; constructor;
    [now apply (extract_P div) | constructor].
Qed.

Lemma page_records_Forall s : Forall P (page_records s).
Proof.
  unfold page_records.
  pose proof (@flat_map_Forall _ _ P row_records (tr_ng_scope s)
                row_records_Forall) as Hr.
  destruct (flat_map row_records (tr_ng_scope s)); [|exact Hr].
  apply flat_map_Forall, div_records_Forall.
Qed.

Lemma scrape_patent_page_Forall pe page d l :
  out (scrape_patent_page pe page d) = Ok l -> Forall P l.
Proof.
  intros H. destruct (scrape_patent_page_records pe page d H)
    as [-> | [s [_ ->]]]; [constructor | apply page_records_Forall].
Qed.

Lemma attempt_Forall cfg env page d l :
  out (attempt cfg env page d) = Ok l -> Forall P l.
Proof.
  unfold attempt. destruct (0 <? max_retries cfg).
  - apply scrape_patent_page_Forall.
  - intros [= <-]. constructor.
Qed.

Lemma pages_out_Forall cfg env d ps : forall acc l,
  Forall P acc -> pages_out cfg env d ps acc = Ok l -> Forall P l.
Proof.
  induction ps as [|page rest IH]; intros acc l Hacc; cbn [pages_out].
  - now intros [= <-].
  - destruct (out (attempt cfg env page d)) as [l'| |] eqn:Ho;
      try discriminate.
    destruct (sleep_refused (rate_limit_delay cfg)); [discriminate|].
    apply IH, Forall_app. split; [exact Hacc|].
    now apply (attempt_Forall cfg env page d).
Qed.

Lemma scrape_all_pages_Forall cfg env d l :
  out (scrape_all_pages cfg env d) = Ok l -> Forall P l.
Proof.
  destruct (outcome_eq_dec_true (out (setup_driver env d))) as [Hs | Hs].
  - destruct (@scrape_all_pages_started cfg env d Hs) as (_ & _ & Ho).
    rewrite Ho. destruct (quit_result env); try discriminate.
    apply pages_out_Forall. constructor.
  - destruct (@scrape_all_pages_not_started cfg env d Hs) as (_ & _ & Ho).
    rewrite Ho. destruct (out (setup_driver env d)); try discriminate.
    intros [= <-]. constructor.
Qed.

End Lifting.



(** ** The analysis of what [main] writes *)

Lemma filter_map_swap {A B} (f : A -> B) (g : B -> bool) (l : list A) :
  filter g (map f l) = map f (filter (fun a => g (f a)) l).
Proof.
  induction l as [|a l IH]; [reflexivity|]. cbn [map filter].
  destruct (g (f a)); cbn [map]; now rewrite IH.
Qed.

Lemma filter_stripped (f : PatentData -> str) (l : list PatentData) :
  Forall (fun p => stripped (f p)) l ->
  filter (fun p => truthy (strip (f p))) l = filter (fun p => truthy (f p)) l.
Proof.
  intros H. apply filter_ext_in. intros p Hp.
  rewrite Forall_forall in H. now rewrite (H p Hp).
Qed.

Lemma well_formed_fields l :
  Forall well_formed l ->
  Forall (fun p => stripped (title p)) l /\
  Forall (fun p => stripped (patent_number p)) l /\
  Forall (fun p => stripped (organization p)) l.
Proof.
  intros H. repeat split; eapply Forall_impl; try exact H;
    intros p Hp; unfold well_formed in Hp; tauto.
Qed.

(** X22. The analysis of the dictionaries that [main] writes for the
    records of a run counts what the summary of [main] counts: the same
    total, the same numbers of records with a title and with a number, and
    the same number of distinct organizations.  (The analysis strips a field
    before it tests it and the summary does not; the records of a run are
    stripped already.) *)
Theorem analysis_agrees_with_summary (cfg : PatentScraperConfig)
    (env : run_env) (l : list PatentData) :
  out (scrape_all_pages cfg env false) = Ok l ->
  l <> [] ->
  exists a, analyze_patents (map to_dict l) = Some a /\
    Analysis.total_patents a = Summary.total_patents (summary cfg l) /\
    Analysis.patents_with_titles a
    = Summary.patents_with_titles (summary cfg l) /\
    Analysis.patents_with_numbers a
    = Summary.patents_with_numbers (summary cfg l) /\
    Analysis.unique_organizations a
    = Summary.unique_organizations (summary cfg l).
Proof.
  intros H Hne.
  assert (Hw : Forall well_formed l).
  { revert H. apply scrape_all_pages_Forall, extracted_well_formed. }
  destruct (well_formed_fields Hw) as (Ht & Hn & Ho).
  destruct l as [|p l]; [congruence|].
  eexists. split; [reflexivity|].
  cbn [Analysis.total_patents Analysis.patents_with_titles
       Analysis.patents_with_numbers Analysis.unique_organizations
       summary Summary.total_patents Summary.patents_with_titles
       Summary.patents_with_numbers Summary.unique_organizations].
  unfold field_values. rewrite !filter_map_swap, !length_map, map_map.
  change (fun a => has_field (py "title") (to_dict a))
    with (fun a => truthy (strip (title a))).
  change (fun a => has_field (py "patent_number") (to_dict a))
    with (fun a => truthy (strip (patent_number a))).
  change (fun a => has_field (py "organization") (to_dict a))
    with (fun a => truthy (strip (organization a))).
  change (fun x => dict_get (to_dict x) (py "organization") [])
    with organization.
  rewrite (filter_stripped title Ht), (filter_stripped patent_number Hn),
    (filter_stripped organization Ho).
  repeat split; reflexivity.
Qed.

Lemma analysis_agrees_with_summary_witness :
  exists a, analyze_patents (map to_dict [widget_record]) = Some a /\
    Analysis.total_patents a
    = Summary.total_patents (summary (one_page 3) [widget_record]) /\
    Analysis.patents_with_titles a
    = Summary.patents_with_titles (summary (one_page 3) [widget_record]) /\
    Analysis.patents_with_numbers a
    = Summary.patents_with_numbers (summary (one_page 3) [widget_record]) /\
    Analysis.unique_organizations a
    = Summary.unique_organizations (summary (one_page 3) [widget_record]).
Proof.
  refine (@analysis_agrees_with_summary (one_page 3)
            (env_of (fun _ _ => ready_page)) [widget_record] _ _).
  - reflexivity.
  - discriminate.
Defined.

(** ** [test_single_page] of [test_single_page.py] *)

Lemma quits_app a b : quits (a ++ b) = (quits a + quits b)%nat.
Proof. unfold quits. now rewrite filter_app, length_app. Qed.

Lemma quiet_no_quit_no_write t :
  forallb quiet t = true -> quits t = 0%nat /\ file_writes t = 0%nat.
Proof.
  induction t as [|ev t IH]; [now split|]. cbn [forallb].
  intros H. apply andb_true_iff in H as [Hev Ht].
  destruct (IH Ht) as [Hq Hw]. unfold quits, file_writes in *.
  cbn [filter]. destruct ev; try discriminate Hev; now split.
Qed.

Lemma probe_page_shape pe source d :
  let r := probe_page pe source d in
  (exists rest, trace r = EvGet 1 :: rest /\ forallb quiet rest = true)
  /\ driver r = d.
Proof.
  unfold probe_page.
  destruct pe as [[[]|[]|] [[]|[]|] [txt|[]|] s]; run_M;
    try destruct (any_in placeholder_indicators txt);
    destruct source as [src|[]|]; cbn;
    (split; [eexists; split; reflexivity | reflexivity]).
Qed.

Local Open Scope Z_scope.

(** The [try] block never closes the browser; it fetches the page once
    when the probe fails and twice otherwise, and writes at most the one
    file. *)
Lemma single_page_body_trace env source d :
  let b := single_page_body env source d in
  let p := probe_page (pages env 1 0%nat) source d in
  let s := scrape_patent_page (pages env 1 1%nat) 1 d in
  quits (trace b) = 0%nat /\
  match out p with
  | Ok _ =>
      navigated (trace b) = [1; 1] /\
      file_writes (trace b)
      = match out s with Ok (_ :: _) => 1%nat | _ => 0%nat end
  | _ =>
      navigated (trace b) = [1] /\ file_writes (trace b) = 0%nat /\
      out b = out p
  end.
Proof.
  cbv zeta. unfold single_page_body. rewrite trace_bind, out_bind.
  destruct (probe_page_shape (pages env 1 0%nat) source d)
    as ([rest [Ht Hq]] & Hd).
  destruct (quiet_no_quit_no_write _ Hq) as [Hq0 Hw0].
  pose proof (navigated_quiet _ Hq) as Hn0.
  rewrite Ht, Hd.
  change (EvGet 1 :: rest) with ([EvGet 1] ++ rest).
  rewrite !quits_app, !navigated_app, !file_writes_app, Hq0, Hw0, Hn0.
  destruct (out (probe_page (pages env 1 0%nat) source d)) as [[]|e|];
    [|now repeat split..].
  rewrite trace_bind.
  destruct (scrape_patent_page_shape (pages env 1 1%nat) 1 d)
    as ([rest' [Ht' Hq']] & _ & _).
  destruct (quiet_no_quit_no_write _ Hq') as [Hq1 Hw1].
  pose proof (navigated_quiet _ Hq') as Hn1.
  rewrite Ht'.
  change (EvLog (LogScraping 1) :: EvGet 1 :: rest')
    with ([EvLog (LogScraping 1); EvGet 1] ++ rest').
  rewrite !quits_app, !navigated_app, !file_writes_app, Hq1, Hw1, Hn1.
  destruct (out (scrape_patent_page (pages env 1 1%nat) 1 d))
    as [[|x l]|e|]; now repeat split.
Qed.

(** [test_single_page] once the browser is set up: the [try] block, then
    [quit]. *)
Lemma test_single_page_started env source :
  browser_started env ->
  let r := test_single_page env source false in
  let b := single_page_body env source true in
  trace r = EvMkdir :: setup_ok_trace ++ trace b ++ [EvQuit] /\
  out r = match quit_result env with
          | Ok _ => out b
          | Raise e => Raise e
          | Interrupted => Interrupted
          end.
Proof.
  intros [Hm Hs]. cbv zeta. unfold test_single_page.
  rewrite trace_bind, out_bind. unfold call.
  cbn [trace out driver]. rewrite Hm.
  rewrite !trace_bind, !out_bind, !(setup_driver_true _ _ Hs).
  cbn [trace out driver negb]. unfold try_finally, call.
  cbn [trace out driver app]. split; reflexivity.
Qed.

(** [test_single_page] when the scraper cannot be built or the browser is
    not set up: nothing else is called. *)
Lemma test_single_page_not_started env source :
  ~ browser_started env ->
  let t := trace (test_single_page env source false) in
  quits t = 0%nat /\ navigated t = [] /\ file_writes t = 0%nat.
Proof.
  intros Hn. cbv zeta. unfold test_single_page.
  rewrite trace_bind. unfold call. cbn [trace out driver].
  destruct (mkdir_result env) as [[]|e|] eqn:Hm; [|now repeat split..].
  rewrite trace_bind, setup_driver_cases.
  assert (Hs : out (setup_driver env false) <> Ok true).
  { intros Hs. apply Hn. now split. }
  rewrite setup_driver_cases in Hs.
  destruct (chrome_result env) as [[]|e|]; [| |now repeat split].
  - destruct (script_result env) as [[]|e|];
      [now destruct Hs | |now repeat split].
    destruct (is_WebDriverException e); now repeat split.
  - destruct (is_WebDriverException e); now repeat split.
Qed.

(** X23. [test_single_page], once the scraper is built and its browser is
    set up, closes the browser exactly once, as the last thing it does,
    whatever the page answers; when the scraper cannot be built or the
    set-up does not return true it fetches no page, writes no file and
    never closes a browser. *)
Theorem test_single_page_closes_browser (env : run_env)
    (source : outcome str) :
  let t := trace (test_single_page env source false) in
  (browser_started env -> quits t = 1%nat /\ last t EvMkdir = EvQuit) /\
  (~ browser_started env ->
   quits t = 0%nat /\ navigated t = [] /\ file_writes t = 0%nat).
Proof.
  cbv zeta. split; [|apply test_single_page_not_started].
  intros Hb. destruct (test_single_page_started source Hb) as [Ht _].
  destruct (single_page_body_trace env source true) as [Hq _].
  rewrite Ht. split.
  - change (EvMkdir :: setup_ok_trace ++ ?x)
      with ((EvMkdir :: setup_ok_trace) ++ x).
    now rewrite !quits_app, Hq.
  - rewrite app_comm_cons, app_assoc. apply last_last.
Qed.

Lemma test_single_page_closes_browser_witness :
  let t := trace (test_single_page (env_of (fun _ _ => lost_session_page))
                    (Ok []) false) in
  quits t = 1%nat /\ last t EvMkdir = EvQuit.
Proof.
  refine (proj1 (test_single_page_closes_browser
                   (env_of (fun _ _ => lost_session_page)) (Ok [])) _).
  split; reflexivity.
Defined.

(** X24. In [test_single_page] with the browser set up, an exception of
    the probe (the fetch, the readiness check or the reading of the page
    source) is not caught: the page is fetched once, no file is written
    and, when [quit] succeeds, the exception leaves the function.  When the
    probe succeeds the page is fetched a second time by
    [scrape_patent_page], and the file is written exactly when that gave a
    record. *)
Theorem test_single_page_probe (env : run_env) (source : outcome str) :
  browser_started env ->
  let r := test_single_page env source false in
  let p := probe_page (pages env 1 0%nat) source true in
  let s := scrape_patent_page (pages env 1 1%nat) 1 true in
  (forall e, out p = Raise e ->
     navigated (trace r) = [1] /\ file_writes (trace r) = 0%nat /\
     (quit_result env = Ok tt -> out r = Raise e)) /\
  (out p = Ok tt ->
     navigated (trace r) = [1; 1] /\
     (file_writes (trace r) = 1%nat <-> exists x l, out s = Ok (x :: l)) /\
     (file_writes (trace r) = 0%nat <-> ~ exists x l, out s = Ok (x :: l))).
Proof.
  intros Hb. cbv zeta.
  destruct (test_single_page_started source Hb) as [Ht Ho].
  destruct (single_page_body_trace env source true) as [_ Hp].
  rewrite Ht, Ho.
  change (EvMkdir :: setup_ok_trace ++ ?x)
    with ((EvMkdir :: setup_ok_trace) ++ x).
  rewrite !navigated_app, !file_writes_app.
  change (navigated (EvMkdir :: setup_ok_trace)) with (@nil Z).
  change (navigated [EvQuit]) with (@nil Z).
  change (file_writes (EvMkdir :: setup_ok_trace)) with 0%nat.
  change (file_writes [EvQuit]) with 0%nat.
  rewrite app_nil_l, app_nil_r, Nat.add_0_l, Nat.add_0_r.
  split.
  - intros e He. rewrite He in Hp. destruct Hp as (Hn & Hw & Hout).
    repeat split; try assumption. intros ->. exact Hout.
  - intros He. rewrite He in Hp. destruct Hp as (Hn & Hw).
    split; [exact Hn|]. rewrite Hw.
    destruct (out (scrape_patent_page (pages env 1 1%nat) 1 true))
      as [[|x l]|e|]; (split; split);
      first [ discriminate
            | solve [intros (? & ? & ?); discriminate]
            | solve [intros _ (? & ? & ?); discriminate]
            | solve [intros _; eauto]
            | solve [intros H; exfalso; apply H; eauto] ].
Qed.

Lemma test_single_page_probe_witness :
  let r := test_single_page (env_of (fun _ _ => lost_session_page))
             (Ok []) false in
  navigated (trace r) = [1] /\ file_writes (trace r) = 0%nat /\
  (quit_result (env_of (fun _ _ => lost_session_page)) = Ok tt ->
   out r = Raise WebDriverException).
Proof.
  refine (proj1 (test_single_page_probe
                   (env := env_of (fun _ _ => lost_session_page))
                   (Ok []) _) WebDriverException _).
  - split; reflexivity.
  - reflexivity.
Defined.

Local Close Scope Z_scope.
